(** * Cell viability from alamarBlue absorbance readings

    A shallow embedding of [alamar_absorbance.py].  The script reads pairs of
    absorbance readings (570 nm, 600 nm) from a worksheet, turns each pair into
    an adjusted absorbance, averages the replicates of every sample, optionally
    discards outliers with the interquartile rule, and reports each sample's
    average as a percentage of the positive control's.

    The arithmetic of the script is written once, over an interface [Number],
    and read at two carriers:
    - IEEE binary64 ([float]), the numbers Python and numpy compute with: what
      is proved for every carrier holds here, and the script can be run on
      concrete worksheets;
    - exact rationals [Q], the real numbers the script's formulas are about,
      where no rounding error and no infinity or NaN exists: what holds only
      of exact arithmetic is proved here, and said to be so.

    What is outside the embedding: the file dialog, loading the workbook, the
    live Excel session the range is selected in, the rendering of the table and
    the export to a Word document.  The answers of the user are the fields of a
    [session]; what the script prints is a list of [message]s.  A worksheet
    holds numbers at addresses of the sheet (rows 1 to 1048576); the number of
    additional samples has been entered as an integer. *)

From Stdlib Require Import ZArith QArith Qround Qabs Lqa Lia Bool List.
From Stdlib Require Import String Ascii DecimalString DecimalPos Permutation Sorted.
From Stdlib Require Import Floats.
From stdpp Require Import base option list gmap strings.
Import ListNotations.

Set Warnings "-inexact-float".

(** ** Numbers *)

(** What the script asks of its numbers: the four operations, the two
    comparisons it uses ([<=] for the outlier bounds, [==] for Python's sets),
    conversion from integer literals, and rounding to the nearest integer with
    ties to even (numpy's [rint], behind [round]). *)
Class Number (T : Type) : Type := {
  of_Z : Z -> T;
  add : T -> T -> T;
  sub : T -> T -> T;
  mul : T -> T -> T;
  div : T -> T -> T;
  leb : T -> T -> bool;
  eqb : T -> T -> bool;
  rint : T -> T
}.
Arguments of_Z {T _} z%_Z.

Declare Scope num_scope.
Delimit Scope num_scope with num.
Infix "+" := add : num_scope.
Infix "-" := sub : num_scope.
Infix "*" := mul : num_scope.
Infix "/" := div : num_scope.
Infix "<=?" := leb : num_scope.
Infix "==?" := eqb (at level 70) : num_scope.

(** *** Exact rationals *)

(** Nearest integer, ties to the even neighbour. *)
Definition Qrint (x : Q) : Q :=
  let f := Qfloor x in
  inject_Z
    match (x - inject_Z f ?= 1 # 2)%Q with
    | Lt => f
    | Gt => f + 1
    | Eq => if Z.even f then f else f + 1
    end.

#[export] Instance Q_Number : Number Q := {|
  of_Z := inject_Z;
  add := Qplus;
  sub := Qminus;
  mul := Qmult;
  div := Qdiv;
  leb := Qle_bool;
  eqb := Qeq_bool;
  rint := Qrint
|}.

(** *** IEEE binary64 *)

Module Binary64.

(** Python converts an [int] operand to [float]; exact below 2^53. *)
Definition of_Z (z : Z) : float :=
  match z with
  | Z0 => 0%float
  | Zpos _ => PrimFloat.of_uint63 (Uint63.of_Z z)
  | Zneg p => PrimFloat.opp (PrimFloat.of_uint63 (Uint63.of_Z (Zpos p)))
  end.

(** C's [rint] in the default rounding mode.  From 2^52 on every binary64
    value is an integer; below, adding and subtracting 2^52 rounds to the
    nearest integer, ties to even.  The sign of the argument is kept, NaN
    and the infinities are returned as they are. *)
Definition rint (x : float) : float :=
  let two52 := 0x1p52%float in
  if PrimFloat.ltb (PrimFloat.abs x) two52 then
    let r := PrimFloat.sub (PrimFloat.add (PrimFloat.abs x) two52) two52 in
    if PrimFloat.get_sign x then PrimFloat.opp r else r
  else x.

End Binary64.

#[export] Instance binary64_Number : Number float := {|
  of_Z := Binary64.of_Z;
  add := PrimFloat.add;
  sub := PrimFloat.sub;
  mul := PrimFloat.mul;
  div := PrimFloat.div;
  leb := PrimFloat.leb;
  eqb := PrimFloat.eqb;
  rint := Binary64.rint
|}.

(** ** Strings: the pieces of Python and openpyxl the range parser uses *)

Open Scope string_scope.

Definition is_letter (c : ascii) : bool :=
  let n := nat_of_ascii c in
  ((65 <=? n)%nat && (n <=? 90)%nat) || ((97 <=? n)%nat && (n <=? 122)%nat).

Definition is_digit (c : ascii) : bool :=
  let n := nat_of_ascii c in (48 <=? n)%nat && (n <=? 57)%nat.

(** [s.split(sep)] for a one-character separator. *)
Fixpoint split (sep : ascii) (s : string) : list string :=
  match s with
  | EmptyString => [EmptyString]
  | String c s' =>
      if Ascii.eqb c sep then EmptyString :: split sep s'
      else match split sep s' with
           | w :: ws => String c w :: ws
           | [] => [String c EmptyString]
           end
  end.

(** [s.replace(c, '')]. *)
Fixpoint remove_char (c : ascii) (s : string) : string :=
  match s with
  | EmptyString => EmptyString
  | String c' s' =>
      if Ascii.eqb c' c then remove_char c s' else String c' (remove_char c s')
  end.

(** The longest prefix whose characters satisfy [p], and the rest. *)
Fixpoint span (p : ascii -> bool) (s : string) : string * string :=
  match s with
  | EmptyString => (EmptyString, EmptyString)
  | String c s' =>
      if p c then let (a, b) := span p s' in (String c a, b)
      else (EmptyString, s)
  end.

Fixpoint string_forallb (p : ascii -> bool) (s : string) : bool :=
  match s with
  | EmptyString => true
  | String c s' => p c && string_forallb p s'
  end.

Definition drop_optional (c : ascii) (s : string) : string :=
  match s with
  | String c' s' => if Ascii.eqb c' c then s' else s
  | EmptyString => s
  end.

(** [int(digits)] on a string of decimal digits. *)
Definition int_of_digits (digits : string) : option Z :=
  match NilEmpty.uint_of_string digits with
  | Some d => Some (Z.of_uint d)
  | None => None
  end.

(** [f"{row}"]: the decimal numeral of an integer. *)
Definition str_of_int (row : Z) : string := NilZero.string_of_int (Z.to_int row).

(** openpyxl's [coordinate_from_string]: the coordinate must match
    [^[$]?([A-Za-z]{1,3})[$]?(\d+)$] and its row must not be 0; the answer is
    the column letters and the row as an integer.  [None] stands for
    [CellCoordinatesException].  (The character classes are disjoint, so the
    greedy match is the longest run of letters; strings are ASCII here.) *)
Definition coordinate_from_string (coord_string : string) : option (string * Z) :=
  let (column, rest) := span is_letter (drop_optional "$" coord_string) in
  let digits := drop_optional "$" rest in
  if ((1 <=? String.length column)%nat && (String.length column <=? 3)%nat
      && (1 <=? String.length digits)%nat && string_forallb is_digit digits)%bool
  then match int_of_digits digits with
       | Some row => if (row =? 0)%Z then None else Some (column, row)
       | None => None
       end
  else None.

(** Python's [range(start, stop, step)] for a positive step. *)
Definition py_range (start stop step : Z) : list Z :=
  map (fun i => (start + Z.of_nat i * step)%Z)
      (seq 0 (Z.to_nat ((stop - start + step - 1) / step))).

(** ** Range parser *)

(** [None] stands for an exception: the unpacking of [split(':')] into two
    names fails unless there are exactly two parts, and either coordinate may
    be refused. *)
Definition get_replicate_cells_from_range (cell_range : string)
  : option (list (string * string)) :=
  match split ":" cell_range with
  | [start_cell; end_cell] =>
      match coordinate_from_string start_cell, coordinate_from_string end_cell with
      | Some (start_col, start_row), Some (end_col, end_row) =>
          Some (map (fun row =>
                       let cell_570 := start_col ++ str_of_int row in
                       let cell_600 := start_col ++ str_of_int (row + 1) in
                       (cell_570, cell_600))
                    (py_range start_row (end_row + 1) 2))
      | _, _ => None
      end
  | _ => None
  end.

Close Scope string_scope.

(** ** The script, over any [Number] *)

Section Code.

Context {T : Type} {num : Number T}.
Local Open Scope num_scope.

(** *** What the script prints *)

(** One cell of the results table: a text or a number. *)
Inductive cell : Type :=
| Text (s : string)
| Value (v : T).

(** The lines the script prints, as events (prompts are left out):
    - [SheetMissing]: "Error: Sheet '...' does not exist in the workbook."
    - [MissingData]: "Warning: Missing data in cells ... or .... Skipping
      these cells."
    - [SelectionError]: "Error getting selected range: ..."
    - [NoControlData]: "No valid data found for positive control. Exiting."
    - [NoSampleData]: "No valid data found for .... Skipping."
    - [RemovedOutliers]: "Removed outliers for ...: {...}"
    - [Results]: the table under "Cell Viability Results:". *)
Inductive message : Type :=
| SheetMissing (sheet_name : string)
| MissingData (cell_570 cell_600 : string)
| SelectionError
| NoControlData
| NoSampleData (sample_name : string)
| RemovedOutliers (sample_name : string) (removed : list T)
| Results (table_data : list (list cell)).

(** A computation that prints: its value and the messages, in order. *)
Definition Out (A : Type) : Type := A * list message.

#[export] Instance Out_ret : MRet Out := fun A a => (a, []).
#[export] Instance Out_bind : MBind Out := fun A B f m =>
  let (b, printed) := f (fst m) in (b, snd m ++ printed).

Definition print (m : message) : Out unit := (tt, [m]).

(** *** Absorbance calculator *)

(** A worksheet: the value of each cell that has one, by address.  A cell
    that is absent has the value [None], as in openpyxl.  The cells hold
    numbers and the addresses lie on the sheet: openpyxl raises for a row
    beyond 1048576, and Python for arithmetic on a text; [main] reports either
    as a failed selection. *)
Fixpoint process_replicates (sheet : gmap string T)
    (replicate_cells : list (string * string)) : Out (list T) :=
  match replicate_cells with
  | [] => mret []
  | (cell_570, cell_600) :: rest =>
      match sheet !! cell_570, sheet !! cell_600 with
      | Some value_570, Some value_600 =>
          let adjusted_absorbance :=
            value_570 * of_Z 117216 - value_600 * of_Z 80586 in
          replicate_values ← process_replicates sheet rest;
          mret (adjusted_absorbance :: replicate_values)
      | _, _ =>
          print (MissingData cell_570 cell_600);;
          process_replicates sheet rest
      end
  end.

(** *** numpy: mean, percentile, round *)

Definition nan : T := of_Z 0 / of_Z 0.

Definition is_nan (x : T) : bool := negb (x ==? x).

(** numpy's pairwise summation of a contiguous array ([pairwise_sum] in
    numpy's loops): fewer than 8 elements are added from left to right; up to
    128 elements are added in eight interleaved partial sums, which are then
    combined as ((r0+r1)+(r2+r3))+((r4+r5)+(r6+r7)), and the elements after
    the last full group of eight are added one by one; a longer array is cut
    near its middle, at a multiple of 8, and the sums of the two parts are
    added. *)
Fixpoint zip_add (r c : list T) : list T :=
  match r, c with
  | x :: r', y :: c' => (x + y) :: zip_add r' c'
  | _, _ => []
  end.

(** [blocks] more groups of eight added onto the partial sums [r]; what is
    left of the array comes back with them. *)
Fixpoint add_blocks (r a : list T) (blocks : nat) : list T * list T :=
  match blocks with
  | O => (r, a)
  | S k => add_blocks (zip_add r (firstn 8 a)) (skipn 8 a) k
  end.

Definition block_sum (a : list T) : T :=
  let (r, rest) := add_blocks (firstn 8 a) (skipn 8 a) (length a / 8 - 1) in
  match r with
  | [r0; r1; r2; r3; r4; r5; r6; r7] =>
      fold_left add rest (((r0 + r1) + (r2 + r3)) + ((r4 + r5) + (r6 + r7)))
  | _ => fold_left add a (of_Z 0)
  end.

(** The recursion halves the array, so as much fuel as the array is long is
    more than enough ([pairwise_sum_fuel_enough]). *)
Fixpoint pairwise_sum_fuel (fuel : nat) (a : list T) : T :=
  let n := length a in
  if (n <? 8)%nat then fold_left add a (of_Z 0)
  else if (n <=? 128)%nat then block_sum a
  else match fuel with
       | O => block_sum a
       | S fuel' =>
           let n2 := (n / 2 - (n / 2) mod 8)%nat in
           pairwise_sum_fuel fuel' (firstn n2 a) + pairwise_sum_fuel fuel' (skipn n2 a)
       end.

Definition pairwise_sum (a : list T) : T := pairwise_sum_fuel (length a) a.

(** [np.add.reduce]: the pairwise sum added to the initial 0 (numpy's sum of
    zeros of negative sign may differ in the sign of the zero). *)
Definition sum (a : list T) : T := of_Z 0 + pairwise_sum a.

(** [np.mean]: the sum over the number of elements; 0/0 on an empty array. *)
Definition mean (a : list T) : T := sum a / of_Z (Z.of_nat (length a)).

Fixpoint insert_sorted (x : T) (l : list T) : list T :=
  match l with
  | [] => [x]
  | y :: l' => if x <=? y then x :: l else y :: insert_sorted x l'
  end.

Definition sort (a : list T) : list T := fold_right insert_sorted [] a.

(** numpy's interpolation between two neighbours: two formulas for the same
    point, the second taken from the middle on. *)
Definition lerp (a b t : T) : T :=
  if of_Z 1 / of_Z 2 <=? t then b - (b - a) * (of_Z 1 - t)
  else a + (b - a) * t.

(** [np.percentile(a, q)], default method (linear interpolation), for an
    integer [q]: the virtual index (n-1)*q/100 into the sorted array, its
    integer part, the next index clipped to the array, and the fractional
    part as interpolation weight.  An array holding a NaN has percentile
    NaN.  For the script's q (25 and 75) numpy's binary64 computation of the
    index and of the weight, a multiple of 1/4, is exact; they are computed
    in [Z] here. *)
Definition percentile (a : list T) (q : Z) : T :=
  let arr := sort a in
  let n := Z.of_nat (length a) in
  let virtual := ((n - 1) * q)%Z in
  let previous := (virtual / 100)%Z in
  let next := Z.min (previous + 1) (n - 1) in
  let gamma := of_Z (virtual mod 100) / of_Z 100 in
  if existsb is_nan a then nan
  else lerp (nth (Z.to_nat previous) arr nan) (nth (Z.to_nat next) arr nan) gamma.

(** [round(x, ndigits)] on a numpy float: scale by 10^ndigits, round to the
    nearest integer (ties to even), scale back. *)
Definition round (x : T) (ndigits : nat) : T :=
  let scale := of_Z (10 ^ Z.of_nat ndigits) in
  rint (x * scale) / scale.

(** *** Interquartile filter *)

Definition filter_outliers (replicate_values : list T) : list T :=
  let Q1 := percentile replicate_values 25 in
  let Q3 := percentile replicate_values 75 in
  let IQR := Q3 - Q1 in
  let Tmin := Q1 - (of_Z 3 / of_Z 2) * IQR in
  let Tmax := Q3 + (of_Z 3 / of_Z 2) * IQR in
  List.filter (fun v => (Tmin <=? v) && (v <=? Tmax)) replicate_values.

(** [set(xs) - set(ys)], listed once each in the order of [xs]. *)
Fixpoint set_difference (xs ys : list T) : list T :=
  match xs with
  | [] => []
  | x :: xs' =>
      let d := set_difference xs' ys in
      if existsb (eqb x) ys || existsb (eqb x) d then d else x :: d
  end.

(** *** Viability aggregator and the run *)

(** The answers of the user and the workbook they are about. *)
Record session : Type := {
  workbook : gmap string (gmap string T);
  sheet_name : string;
  positive_control_name : string;
  positive_control_selection : string;
  remove_outliers : bool;
  samples : list (string * string)
}.

(** The [try] block around each selection: the address Excel reports, its
    dollar signs removed, is parsed and read; an exception is reported and
    leaves no values. *)
Definition read_selection (sheet : gmap string T) (address : string)
  : Out (option (list T)) :=
  let selected_range := remove_char "$" address in
  match get_replicate_cells_from_range selected_range with
  | Some replicate_cells =>
      replicate_values ← process_replicates sheet replicate_cells;
      mret (Some replicate_values)
  | None => print SelectionError;; mret None
  end.

(** The first loop: one entry (name, selection) per additional sample. *)
Fixpoint collect_samples (sheet : gmap string T)
    (entries : list (string * string)) : Out (list (string * list T)) :=
  match entries with
  | [] => mret []
  | (sample_name, address) :: rest =>
      r ← read_selection sheet address;
      match r with
      | None => collect_samples sheet rest
      | Some [] =>
          print (NoSampleData sample_name);;
          collect_samples sheet rest
      | Some replicate_values =>
          samples_data ← collect_samples sheet rest;
          mret ((sample_name, replicate_values) :: samples_data)
      end
  end.

(** The values a sample is averaged over. *)
Definition filtered_values (remove_outliers : bool) (sample_name : string)
    (replicate_values : list T) : Out (list T) :=
  if remove_outliers && (2 <? length replicate_values)%nat then
    let filtered := filter_outliers replicate_values in
    (if (length filtered =? length replicate_values)%nat then mret tt
     else print (RemovedOutliers sample_name
                   (set_difference replicate_values filtered)));;
    mret filtered
  else mret replicate_values.

Definition viability_percentage (average positive_control_average : T) : T :=
  round ((average / positive_control_average) * of_Z 100) 1.

(** The body of the second loop: the row of one sample. *)
Definition sample_row (remove_outliers : bool) (positive_control_average : T)
    (sample : string * list T) : Out (list cell) :=
  let (sample_name, replicate_values) := sample in
  filtered ← filtered_values remove_outliers sample_name replicate_values;
  let average := mean filtered in
  mret [Text sample_name;
        Value (viability_percentage average positive_control_average)].

Fixpoint sample_rows (remove_outliers : bool) (positive_control_average : T)
    (samples_data : list (string * list T)) : Out (list (list cell)) :=
  match samples_data with
  | [] => mret []
  | sample :: rest =>
      row ← sample_row remove_outliers positive_control_average sample;
      rows ← sample_rows remove_outliers positive_control_average rest;
      mret (row :: rows)
  end.

(** [main], from the loaded workbook to the display of the results table
    (lines 89 to 202), for a number of samples entered as an integer: the
    entries of [samples] are the passes of the first loop.  The value is the
    results table, or [None] where the script returns before there is one.
    The question about the export and what it prints come after. *)
Definition main (s : session) : Out (option (list (list cell))) :=
  match workbook s !! sheet_name s with
  | None => print (SheetMissing (sheet_name s));; mret None
  | Some sheet =>
      r ← read_selection sheet (positive_control_selection s);
      match r with
      | None => mret None
      | Some [] => print NoControlData;; mret None
      | Some positive_control_replicate_values =>
          let positive_control_average := mean positive_control_replicate_values in
          let positive_control_viability_percentage := of_Z 100 in
          samples_data ← collect_samples sheet (samples s);
          rows ← sample_rows (remove_outliers s) positive_control_average samples_data;
          let table_data :=
            [Text "Sample"; Text "Cell Viability %"]
            :: [Text (positive_control_name s);
                Value positive_control_viability_percentage]
            :: rows in
          print (Results table_data);;
          mret (Some table_data)
      end
  end.

End Code.

Arguments Out T A : clear implicits.
Arguments cell T : clear implicits.
Arguments message T : clear implicits.
Arguments session T : clear implicits.

(** ** Vocabulary of the statements *)

Open Scope string_scope.

(** A column token as Excel writes it: one to three letters. *)
Definition is_column (col : string) : bool :=
  ((1 <=? String.length col)%nat && (String.length col <=? 3)%nat
   && string_forallb is_letter col)%bool.

(** The address of the cell in column [col], row [row]. *)
Definition address (col : string) (row : Z) : string := col ++ str_of_int row.

(** The range string [<col><start_row>:<col><end_row>]. *)
Definition column_range (col : string) (start_row end_row : Z) : string :=
  address col start_row ++ ":" ++ address col end_row.

(** The pairs of a column from [start_row] on: pair [i] is rows
    [start_row + 2i] and [start_row + 2i + 1]. *)
Definition replicate_pairs (col : string) (start_row : Z) (count : nat)
  : list (string * string) :=
  map (fun i => (address col (start_row + 2 * Z.of_nat i),
                 address col (start_row + 2 * Z.of_nat i + 1)))
      (seq 0 count).

Close Scope string_scope.

(** The adjusted absorbance of one pair of cells, when both readings are
    present: reading570 * 117216 - reading600 * 80586. *)
Definition adjusted {T : Type} {num : Number T} (sheet : gmap string T)
    (pair : string * string) : option T :=
  match sheet !! fst pair, sheet !! snd pair with
  | Some value_570, Some value_600 =>
      Some (value_570 * of_Z 117216 - value_600 * of_Z 80586)%num
  | _, _ => None
  end.

(** The sample a row of the table is about: the text of its first cell. *)
Definition row_label {T : Type} (row : list (cell T)) : string :=
  match row with
  | Text s :: _ => s
  | _ => EmptyString
  end.

(** The readings 0.5 (570 nm) and 0.2 (600 nm) in cells A1 and A2. *)
Definition readings_example : gmap string Q :=
  {[ "A1"%string := 0.5%Q; "A2"%string := 0.2%Q ]}.

Definition readings_example_binary64 : gmap string float :=
  {[ "A1"%string := 0.5%float; "A2"%string := 0.2%float ]}.

(** The messages reading a selection can print. *)
Definition reading_message {T : Type} (m : message T) : Prop :=
  match m with
  | MissingData _ _ | SelectionError => True
  | _ => False
  end.

(** A run on exact readings: the control in A1:A2, one sample in A3:A4, a
    sample selected in an empty column and a selection of a single cell. *)
Definition example_sheet : gmap string Q :=
  {[ "A1"%string := 0.5%Q; "A2"%string := 0.2%Q;
     "A3"%string := 0.4%Q; "A4"%string := 0.2%Q ]}.

Definition example_session : session Q := {|
  workbook := {[ "Sheet1"%string := example_sheet ]};
  sheet_name := "Sheet1";
  positive_control_name := "control";
  positive_control_selection := "$A$1:$A$2";
  remove_outliers := true;
  samples := [("s1", "$A$3:$A$4"); ("s2", "$C$3:$C$6"); ("s3", "$C$3")]%string
|}.

(** The same workbook with the control selected in an empty column. *)
Definition empty_control_session : session Q := {|
  workbook := workbook example_session;
  sheet_name := "Sheet1";
  positive_control_name := "control";
  positive_control_selection := "$B$1:$B$4";
  remove_outliers := true;
  samples := [("s1", "$A$3:$A$4")]%string
|}.

(** *** The statistics in the spec's words, over exact numbers *)

Section SpecWords.

Local Open Scope Q_scope.

(** The mean: the sum of the values over their number. *)
Definition spec_mean (values : list Q) : Q :=
fold_right Qplus 0 values / inject_Z (Z.of_nat (length values)).

(** The [p]-th percentile of sorted data by linear interpolation between data
  points: at position h = (n-1)*p/100, the value at floor(h) plus the
  fraction of h times the step to the next value. *)
Definition spec_percentile (sorted : list Q) (p : Z) : Q :=
let n := Z.of_nat (length sorted) in
let h := inject_Z ((n - 1) * p) / 100 in
let lower := nth (Z.to_nat (Qfloor h)) sorted 0 in
let upper := nth (Z.to_nat (Z.min (Qfloor h + 1) (n - 1))) sorted 0 in
lower + (h - inject_Z (Qfloor h)) * (upper - lower).

(** [r] is [x] rounded to one decimal place, a tie going to the even last
  digit: [r] is a whole number of tenths, at most half a tenth away. *)
Definition rounded_to_tenths (x r : Q) : Prop :=
exists k : Z,
  r == inject_Z k / 10
  /\ Qabs (x * 10 - inject_Z k) <= 1 # 2
  /\ (Qabs (x * 10 - inject_Z k) == 1 # 2 -> Z.even k = true).

End SpecWords.

(** Readings that overflow binary64: both readings of the first replicate of
    sample "s1" are 1e305, so its adjusted absorbance is inf - inf. *)
Definition overflow_sheet : gmap string float :=
  {[ "A1"%string := 1e305%float; "A2"%string := 1e305%float;
     "A3"%string := 0.5%float; "A4"%string := 0.2%float;
     "A5"%string := 0.6%float; "A6"%string := 0.2%float;
     "B1"%string := 0.5%float; "B2"%string := 0.2%float ]}.

Definition overflow_session : session float := {|
  workbook := {[ "Sheet1"%string := overflow_sheet ]};
  sheet_name := "Sheet1";
  positive_control_name := "control";
  positive_control_selection := "$B$1:$B$2";
  remove_outliers := true;
  samples := [("s1", "$A$1:$A$6")]%string
|}.

(** ** The answers to yes/no questions and the export file name *)

Section Answers.

Local Open Scope string_scope.

(** Python's [str.isspace] on ASCII: tab to carriage return, the separators
    28 to 31, and the space. *)
Definition is_space (c : ascii) : bool :=
  let n := nat_of_ascii c in
  ((9 <=? n)%nat && (n <=? 13)%nat) || ((28 <=? n)%nat && (n <=? 32)%nat).

Fixpoint lstrip (s : string) : string :=
  match s with
  | String c s' => if is_space c then lstrip s' else s
  | EmptyString => EmptyString
  end.

Fixpoint rstrip (s : string) : string :=
  match s with
  | String c s' =>
      match rstrip s' with
      | EmptyString => if is_space c then EmptyString else String c EmptyString
      | r => String c r
      end
  | EmptyString => EmptyString
  end.

(** [s.strip()]: the white space at both ends removed. *)
Definition strip (s : string) : string := rstrip (lstrip s).

Definition lower_char (c : ascii) : ascii :=
  let n := nat_of_ascii c in
  if ((65 <=? n)%nat && (n <=? 90)%nat)%bool then ascii_of_nat (n + 32) else c.

(** [s.lower()] on ASCII. *)
Fixpoint lower (s : string) : string :=
  match s with
  | String c s' => String (lower_char c) (lower s')
  | EmptyString => EmptyString
  end.

(** [input(...).strip().lower() == "yes"]: how the script reads the answers to
    "Do you want to remove outliers for the samples?" and "Do you want to
    export the table to a Word document?". *)
Definition answered_yes (answer : string) : bool :=
  String.eqb (lower (strip answer)) "yes".

(** [s.endswith(suffix)]. *)
Fixpoint endswith (s suffix : string) : bool :=
  String.eqb s suffix
  || match s with
     | String _ s' => endswith s' suffix
     | EmptyString => false
     end.

(** The name the document is saved under: the name entered, with ".docx"
    appended unless it ends with it. *)
Definition output_file_name (output_file : string) : string :=
  if endswith output_file ".docx" then output_file else output_file ++ ".docx".

(** *** Vocabulary *)

Definition count_char (c : ascii) (s : string) : nat :=
  List.length (List.filter (Ascii.eqb c) (list_ascii_of_string s)).

(** A range string whose two corners may be in different columns. *)
Definition corner_range (start_col : string) (start_row : Z)
    (end_col : string) (end_row : Z) : string :=
  address start_col start_row ++ ":" ++ address end_col end_row.



(** The cells a list of pairs names, in reading order. *)
Definition cells_of (pairs : list (string * string)) : list string :=
  flat_map (fun pair => [fst pair; snd pair]) pairs.

(** A string of white space only. *)
Definition blank (s : string) : Prop := string_forallb is_space s = true.

End Answers.

(** Whether a pair lacks a reading. *)
Definition lacks_reading {T : Type} {num : Number T} (sheet : gmap string T)
    (pair : string * string) : bool :=
  match adjusted sheet pair with
  | Some _ => false
  | None => true
  end.

(** The message that carries the results table. *)
Definition is_results {T : Type} (m : message T) : Prop :=
  match m with
  | Results _ => True
  | _ => False
  end.

(** A session with more sample entries after its own. *)
Definition with_more_samples {T : Type} (s : session T)
    (more : list (string * string)) : session T := {|
  workbook := workbook s;
  sheet_name := sheet_name s;
  positive_control_name := positive_control_name s;
  positive_control_selection := positive_control_selection s;
  remove_outliers := remove_outliers s;
  samples := samples s ++ more
|}.

(** ** The two carriers side by side *)

(** The laws of order that sorting and the set of removed values rely on: the
    comparison [<=] is total on values that are not NaN and transitive, and
    values that are [==] compare alike.  The exact rationals and binary64
    both have them ([Q_ordered], [binary64_ordered]). *)
Definition ordered_carrier (T : Type) {num : Number T} : Prop :=
  (forall x y : T,
      is_nan x = false -> is_nan y = false ->
      leb x y = true \/ leb y x = true)
  /\ (forall x y z : T, leb x y = true -> leb y z = true -> leb x z = true)
  /\ (forall x y z : T,
         eqb x y = true -> leb z x = leb z y /\ leb x z = leb y z).

(** numpy's linear interpolation read off an array that is already sorted:
    with h = (n-1)*q/100, the values at floor(h) and at the next index (the
    last one at most) and the fraction of h as weight, in the two formulas of
    numpy's [_lerp]. *)
Definition interpolate {T : Type} {num : Number T} (sorted : list T) (q : Z) : T :=
  let n := Z.of_nat (length sorted) in
  let lower := nth (Z.to_nat ((n - 1) * q / 100)) sorted nan in
  let upper := nth (Z.to_nat (Z.min ((n - 1) * q / 100 + 1) (n - 1))) sorted nan in
  let g := (of_Z (((n - 1) * q) mod 100) / of_Z 100)%num in
  if (of_Z 1 / of_Z 2 <=? g)%num
  then (upper - (upper - lower) * (of_Z 1 - g))%num
  else (lower + (upper - lower) * g)%num.

(** The two tests a value has to pass to be kept, against bounds [Tmin] and
    [Tmax] as the carrier computes them from the quartiles. *)
Definition within_bounds {T : Type} {num : Number T} (Q1 Q3 : T) (v : T) : bool :=
  let IQR := (Q3 - Q1)%num in
  let Tmin := (Q1 - (of_Z 3 / of_Z 2) * IQR)%num in
  let Tmax := (Q3 + (of_Z 3 / of_Z 2) * IQR)%num in
  ((Tmin <=? v) && (v <=? Tmax))%num.

(** The percentage the second loop reports for a collected sample: its
    values are filtered, averaged and set against the control's average. *)
Definition reported_percentage {T : Type} {num : Number T} (flag : bool)
    (control_values : list T) (sample : string * list T) : T :=
  viability_percentage
    (mean (fst (filtered_values flag (fst sample) (snd sample))))
    (mean control_values).

(** The rational number a finite binary64 number is (0 for the others). *)
Definition Q_of_float (x : float) : Q :=
  match Prim2SF x with
  | S754_finite s m e =>
      ((if s then -1 else 1) * inject_Z (Z.pos m) * Qpower 2 e)%Q
  | _ => 0%Q
  end.

(** A key that orders the binary64 numbers other than NaN as [<=] does:
    class (infinite, negative, zero, positive), then exponent, then mantissa. *)
Definition SF_key (f : spec_float) : Z * Z * Z :=
  match f with
  | S754_zero _ => (0, 0, 0)
  | S754_infinity s => (if s then -2 else 2, 0, 0)
  | S754_nan => (0, 0, 0)
  | S754_finite s m e => if s then (-1, - e, - Z.pos m) else (1, e, Z.pos m)
  end%Z.

Definition key_le (k1 k2 : Z * Z * Z) : Prop :=
  let '(a1, b1, c1) := k1 in
  let '(a2, b2, c2) := k2 in
  (a1 < a2 \/ (a1 = a2 /\ (b1 < b2 \/ (b1 = b2 /\ c1 <= c2))))%Z.

(** *** Worksheets on which binary64 and exact arithmetic part ways *)

(** Four replicates, 570 nm readings 0.44, 0.47, 0.50, 0.65 over 0.1 at
    600 nm: the largest adjusted value equals the exact upper bound. *)
Definition boundary_sheet : gmap string float :=
  {[ "A1"%string := 0.44%float; "A2"%string := 0.1%float;
     "A3"%string := 0.47%float; "A4"%string := 0.1%float;
     "A5"%string := 0.50%float; "A6"%string := 0.1%float;
     "A7"%string := 0.65%float; "A8"%string := 0.1%float ]}.

Definition boundary_values : list float :=
  fst (process_replicates boundary_sheet
         [("A1", "A2"); ("A3", "A4"); ("A5", "A6"); ("A7", "A8")]%string).

(** A control (0.625 over 0) and a sample (0.265625 over 0.125) whose exact
    ratio is 28.75 %, a tie between 28.7 and 28.8. *)
Definition tie_sheet : gmap string float :=
  {[ "A1"%string := 0.625%float; "A2"%string := 0%float;
     "A3"%string := 0.265625%float; "A4"%string := 0.125%float ]}.

Definition tie_session : session float := {|
  workbook := {[ "Sheet1"%string := tie_sheet ]};
  sheet_name := "Sheet1";
  positive_control_name := "control";
  positive_control_selection := "$A$1:$A$2";
  remove_outliers := true;
  samples := [("s1", "$A$3:$A$4")]%string
|}.




(** Replicate values of the order of 2^53 and one value 2.5: the quartiles
    are data values, the upper bound is exactly 2.5, and its binary64
    computation gives 2. *)
Definition cancelling_values : list float :=
  [-8444249301319685; -8444249301319685; -8444249301319685;
   -5066549580791810; 2.5]%float.

(** A session on the boundary worksheet: the control is the third replicate
    (A5:A6), the sample "s1" has the four replicates of A1:A8. *)
Definition boundary_session : session float := {|
  workbook := {[ "Sheet1"%string := boundary_sheet ]};
  sheet_name := "Sheet1";
  positive_control_name := "control";
  positive_control_selection := "$A$5:$A$6";
  remove_outliers := true;
  samples := [("s1", "$A$1:$A$8")]%string
|}.

(** * Properties *)

(** ** Range parser *)

Section RangeParser.

Local Open Scope string_scope.

Lemma letter_not_digit c : is_letter c = true -> is_digit c = false.
Proof. destruct c as [[] [] [] [] [] [] [] []]; vm_compute; congruence. Qed.

Lemma letter_not_dollar c : is_letter c = true -> Ascii.eqb c "$" = false.
Proof. destruct c as [[] [] [] [] [] [] [] []]; vm_compute; congruence. Qed.

Lemma letter_not_colon c : is_letter c = true -> Ascii.eqb c ":" = false.
Proof. destruct c as [[] [] [] [] [] [] [] []]; vm_compute; congruence. Qed.

Lemma digit_not_dollar c : is_digit c = true -> Ascii.eqb c "$" = false.
Proof. destruct c as [[] [] [] [] [] [] [] []]; vm_compute; congruence. Qed.

Lemma digit_not_colon c : is_digit c = true -> Ascii.eqb c ":" = false.
Proof. destruct c as [[] [] [] [] [] [] [] []]; vm_compute; congruence. Qed.

Lemma digit_not_letter c : is_digit c = true -> is_letter c = false.
Proof. destruct c as [[] [] [] [] [] [] [] []]; vm_compute; congruence. Qed.

Lemma string_forallb_app p a b :
  string_forallb p (a ++ b) = string_forallb p a && string_forallb p b.
Proof. induction a as [|c a IH]; simpl; [reflexivity|]. rewrite IH. apply andb_assoc. Qed.

Lemma string_forallb_impl (p q : ascii -> bool) s :
  (forall c, p c = true -> q c = true) ->
  string_forallb p s = true -> string_forallb q s = true.
Proof.
  intros Hpq. induction s as [|c s IH]; simpl; [reflexivity|].
  rewrite !andb_true_iff. intros [Hc Hs]. auto.
Qed.

(** [split] on a string without the separator, and across one separator. *)
Lemma split_none sep s :
  string_forallb (fun c => negb (Ascii.eqb c sep)) s = true -> split sep s = [s].
Proof.
  induction s as [|c s IH]; simpl; [reflexivity|].
  rewrite andb_true_iff, negb_true_iff. intros [Hc Hs].
  rewrite Hc, (IH Hs). reflexivity.
Qed.

Lemma split_one sep a b :
  string_forallb (fun c => negb (Ascii.eqb c sep)) a = true ->
  string_forallb (fun c => negb (Ascii.eqb c sep)) b = true ->
  split sep (a ++ String sep b) = [a; b].
Proof.
  intros Ha Hb. induction a as [|c a IH]; simpl in *.
  - rewrite Ascii.eqb_refl, (split_none _ _ Hb). reflexivity.
  - apply andb_true_iff in Ha as [Hc Ha]. apply negb_true_iff in Hc.
    rewrite Hc, (IH Ha). reflexivity.
Qed.

Lemma span_app p a c b :
  string_forallb p a = true -> p c = false ->
  span p (a ++ String c b) = (a, String c b).
Proof.
  intros Ha Hc. induction a as [|x a IH]; simpl in *.
  - rewrite Hc. reflexivity.
  - apply andb_true_iff in Ha as [Hx Ha]. rewrite Hx, (IH Ha). reflexivity.
Qed.

(** The numeral of a positive row: digits only, at least one, and read back
    by [int]. *)
Lemma digits_of_uint d : string_forallb is_digit (NilEmpty.string_of_uint d) = true.
Proof. induction d; simpl; auto. Qed.

Lemma str_of_int_pos p :
  exists c ds, str_of_int (Z.pos p) = String c ds
               /\ is_digit c = true
               /\ string_forallb is_digit ds = true
               /\ int_of_digits (String c ds) = Some (Z.pos p).
Proof.
  unfold str_of_int, int_of_digits. simpl.
  pose proof (DecimalPos.Unsigned.to_uint_nonnil p) as Hnil.
  pose proof (DecimalPos.Unsigned.of_to p) as Hback.
  pose proof (digits_of_uint (Pos.to_uint p)) as Hdig.
  pose proof (NilEmpty.usu (Pos.to_uint p)) as Hread.
  assert (Hz : NilZero.string_of_uint (Pos.to_uint p)
               = NilEmpty.string_of_uint (Pos.to_uint p))
    by (destruct (Pos.to_uint p); [congruence | reflexivity ..]).
  rewrite Hz.
  destruct (NilEmpty.string_of_uint (Pos.to_uint p)) as [|c ds] eqn:E.
  - destruct (Pos.to_uint p); simpl in E; congruence.
  - exists c, ds. simpl in Hdig. apply andb_true_iff in Hdig as [Hc Hds].
    split; [reflexivity|]. split; [exact Hc|]. split; [exact Hds|].
    change (match NilEmpty.uint_of_string (String c ds) with
            | Some d => Some (Z.of_uint d) | None => None end = Some (Z.pos p)).
    rewrite Hread. unfold Z.of_uint. rewrite Hback. reflexivity.
Qed.

Lemma is_column_spec col :
  is_column col = true ->
  (1 <= String.length col <= 3)%nat /\ string_forallb is_letter col = true.
Proof.
  unfold is_column. rewrite !andb_true_iff, !Nat.leb_le. tauto.
Qed.

Lemma coordinate_from_address col row :
  is_column col = true -> (0 < row)%Z ->
  coordinate_from_string (address col row) = Some (col, row).
Proof.
  intros Hcol Hrow. pose proof Hcol as Hcol'.
  apply is_column_spec in Hcol' as [Hlen Hletters].
  destruct row as [|p|p]; try lia.
  destruct (str_of_int_pos p) as (c & ds & Hstr & Hc & Hds & Hint).
  unfold coordinate_from_string, address. rewrite Hstr.
  assert (Hdrop : drop_optional "$" (col ++ String c ds) = col ++ String c ds).
  { destruct col as [|x col]; simpl in *; [lia|].
    apply andb_true_iff in Hletters as [Hx _].
    rewrite (letter_not_dollar _ Hx). reflexivity. }
  rewrite Hdrop, (span_app _ _ _ _ Hletters (digit_not_letter _ Hc)).
  simpl drop_optional. rewrite (digit_not_dollar _ Hc).
  unfold is_column in Hcol. apply andb_true_iff in Hcol as [Hcol _].
  rewrite Hcol. simpl string_forallb. rewrite Hc, Hds. simpl.
  rewrite Hint. reflexivity.
Qed.

Lemma address_no_colon col row :
  is_column col = true -> (0 < row)%Z ->
  string_forallb (fun c => negb (Ascii.eqb c ":")) (address col row) = true.
Proof.
  intros Hcol Hrow. apply is_column_spec in Hcol as [_ Hletters].
  destruct row as [|p|p]; try lia.
  destruct (str_of_int_pos p) as (c & ds & Hstr & Hc & Hds & _).
  unfold address. rewrite Hstr, string_forallb_app. apply andb_true_iff. split.
  - eapply string_forallb_impl; [|exact Hletters].
    intros x Hx. now rewrite (letter_not_colon _ Hx).
  - simpl. rewrite (digit_not_colon _ Hc). simpl.
    eapply string_forallb_impl; [|exact Hds].
    intros x Hx. now rewrite (digit_not_colon _ Hx).
Qed.

Lemma py_range_step2 start stop :
  py_range start stop 2
  = map (fun i => (start + 2 * Z.of_nat i)%Z) (seq 0 (Z.to_nat ((stop - start + 1) / 2))).
Proof.
  unfold py_range. replace (stop - start + 2 - 1)%Z with (stop - start + 1)%Z by lia.
  apply map_ext. intros i. lia.
Qed.

(** What the parser answers on a single-column range, whatever the parity
    of its number of rows. *)
Lemma get_replicate_cells_column col start_row end_row :
  is_column col = true -> (0 < start_row)%Z -> (0 < end_row)%Z ->
  get_replicate_cells_from_range (column_range col start_row end_row)
  = Some (replicate_pairs col start_row (Z.to_nat ((end_row - start_row + 2) / 2))).
Proof.
  intros Hcol Hs He. unfold get_replicate_cells_from_range, column_range.
  change (":" ++ address col end_row) with (String ":" (address col end_row)).
  rewrite (split_one _ _ _ (address_no_colon _ _ Hcol Hs) (address_no_colon _ _ Hcol He)).
  rewrite !coordinate_from_address by assumption.
  rewrite py_range_step2. unfold replicate_pairs. rewrite map_map.
  replace (end_row + 1 - start_row + 1)%Z with (end_row - start_row + 2)%Z by lia.
  reflexivity.
Qed.

End RangeParser.

(** C2. On a single-column range with an even number of rows the parser
    answers the pairs in row order, pair [i] being the cells of rows
    [start_row + 2i] and [start_row + 2i + 1]; on "A1:A8" these are
    (A1,A2), (A3,A4), (A5,A6), (A7,A8). *)
Theorem even_range_pairs (col : string) (start_row end_row : Z) :
  is_column col = true -> (0 < start_row)%Z -> (start_row <= end_row)%Z ->
  Z.odd (end_row - start_row) = true ->
  get_replicate_cells_from_range (column_range col start_row end_row)
  = Some (replicate_pairs col start_row (Z.to_nat ((end_row - start_row + 1) / 2)))
  /\ get_replicate_cells_from_range "A1:A8"
     = Some [("A1", "A2"); ("A3", "A4"); ("A5", "A6"); ("A7", "A8")]%string.
Proof.
  intros Hcol Hs Hle Hodd. split; [|reflexivity].
  rewrite get_replicate_cells_column by (assumption || lia).
  do 2 f_equal.
  rewrite Z.odd_spec in Hodd. destruct Hodd as [k Hk].
  replace (end_row - start_row + 2)%Z with (1 + (k + 1) * 2)%Z by lia.
  replace (end_row - start_row + 1)%Z with (0 + (k + 1) * 2)%Z by lia.
  rewrite !Z.div_add by lia. reflexivity.
Qed.

Lemma even_range_pairs_witness :
  get_replicate_cells_from_range (column_range "A" 1 8)
  = Some (replicate_pairs "A" 1 (Z.to_nat ((8 - 1 + 1) / 2)))
  /\ get_replicate_cells_from_range "A1:A8"
     = Some [("A1", "A2"); ("A3", "A4"); ("A5", "A6"); ("A7", "A8")]%string.
Proof.
  apply (even_range_pairs "A" 1 8); [reflexivity | lia | lia | reflexivity].
Defined.

(** C8. On a single-column range with an odd number of rows the parser
    still pairs the last row: the final pair is the cell of [end_row] and the
    cell of [end_row + 1], one row past the selection. *)
Theorem odd_range_last_pair (col : string) (start_row end_row : Z) :
  is_column col = true -> (0 < start_row)%Z -> (start_row <= end_row)%Z ->
  Z.even (end_row - start_row) = true ->
  get_replicate_cells_from_range (column_range col start_row end_row)
  = Some (replicate_pairs col start_row (Z.to_nat ((end_row - start_row) / 2))
          ++ [(address col end_row, address col (end_row + 1))]).
Proof.
  intros Hcol Hs Hle Heven.
  rewrite get_replicate_cells_column by (assumption || lia).
  f_equal.
  rewrite Z.even_spec in Heven. destruct Heven as [k Hk].
  replace (end_row - start_row + 2)%Z with ((k + 1) * 2)%Z by lia.
  replace (end_row - start_row)%Z with (k * 2)%Z by lia.
  rewrite !Z.div_mul by lia.
  replace (Z.to_nat (k + 1)) with (S (Z.to_nat k)) by lia.
  unfold replicate_pairs. rewrite seq_S, map_app. simpl.
  replace (start_row + 2 * Z.of_nat (Z.to_nat k))%Z with end_row by lia.
  reflexivity.
Qed.

Lemma odd_range_last_pair_witness :
  get_replicate_cells_from_range (column_range "A" 1 7)
  = Some (replicate_pairs "A" 1 3 ++ [("A7", "A8")]%string).
Proof.
  apply (odd_range_last_pair "A" 1 7); [reflexivity | lia | lia | reflexivity].
Defined.

(** ** Absorbance calculator *)

Section Calculator.

Context {T : Type} {num : Number T}.

Lemma Out_bind_fst {A B} (f : A -> Out T B) (m : Out T A) :
  fst (m ≫= f) = fst (f (fst m)).
Proof. unfold mbind, Out_bind. destruct (f (fst m)). reflexivity. Qed.

Lemma Out_bind_snd {A B} (f : A -> Out T B) (m : Out T A) :
  snd (m ≫= f) = snd m ++ snd (f (fst m)).
Proof. unfold mbind, Out_bind. destruct (f (fst m)). reflexivity. Qed.

Lemma process_replicates_values (sheet : gmap string T) cells :
  fst (process_replicates sheet cells) = omap (adjusted sheet) cells.
Proof.
  induction cells as [|[c570 c600] rest IH]; [reflexivity|].
  change (omap (adjusted sheet) ((c570, c600) :: rest))
    with (match adjusted sheet (c570, c600) with
          | Some v => v :: omap (adjusted sheet) rest
          | None => omap (adjusted sheet) rest
          end).
  rewrite <- IH. unfold adjusted. cbn [fst snd process_replicates].
  destruct (sheet !! c570) as [v570|]; [destruct (sheet !! c600) as [v600|]|];
    rewrite Out_bind_fst; reflexivity.
Qed.

Lemma process_replicates_printed (sheet : gmap string T) cells c570 c600 :
  In (c570, c600) cells -> adjusted sheet (c570, c600) = None ->
  In (MissingData c570 c600) (snd (process_replicates sheet cells)).
Proof.
  induction cells as [|[a b] rest IH]; [intros []|].
  intros [Heq | Hin] Hnone.
  - inversion Heq; subst a b. unfold adjusted in Hnone. cbn [fst snd] in Hnone.
    cbn [process_replicates].
    destruct (sheet !! c570); [destruct (sheet !! c600); [discriminate|]|];
      rewrite Out_bind_snd; apply in_or_app; cbn; auto.
  - specialize (IH Hin Hnone). cbn [process_replicates].
    destruct (sheet !! a); [destruct (sheet !! b)|];
      rewrite Out_bind_snd; apply in_or_app; cbn; auto.
Qed.

Lemma process_replicates_length (sheet : gmap string T) cells :
  length (fst (process_replicates sheet cells)) <= length cells.
Proof.
  rewrite process_replicates_values.
  induction cells as [|pair rest IH]; cbn [omap list_omap]; [reflexivity|].
  destruct (adjusted sheet pair); cbn [length]; lia.
Qed.

End Calculator.

(** C3, as the code has it.  A pair whose two readings are present
    contributes reading570 * 117216 - reading600 * 80586; for the readings
    0.5 and 0.2 that is 42490.8 (the binary64 number nearest to it, in
    Python's arithmetic). *)
Theorem adjusted_absorbance_formula {T : Type} {num : Number T}
    (sheet : gmap string T) (cell_570 cell_600 : string) (value_570 value_600 : T)
    (rest : list (string * string)) :
  sheet !! cell_570 = Some value_570 -> sheet !! cell_600 = Some value_600 ->
  fst (process_replicates sheet ((cell_570, cell_600) :: rest))
  = (value_570 * of_Z 117216 - value_600 * of_Z 80586)%num
    :: fst (process_replicates sheet rest)
  /\ (exists v : Q, fst (process_replicates readings_example [("A1", "A2")%string]) = [v]
                    /\ v == 42490.8)
  /\ fst (process_replicates readings_example_binary64 [("A1", "A2")%string])
     = [42490.8%float].
Proof.
  intros H570 H600. split; [|split].
  - rewrite !process_replicates_values. cbn [omap list_omap].
    unfold adjusted at 1. cbn [fst snd]. rewrite H570, H600. reflexivity.
  - eexists. split; [vm_compute; reflexivity | reflexivity].
  - vm_compute. reflexivity.
Qed.

Lemma adjusted_absorbance_formula_witness :
  fst (process_replicates readings_example [("A1", "A2")%string])
  = [(0.5 * inject_Z 117216 - 0.2 * inject_Z 80586)%Q].
Proof.
  exact (proj1 (adjusted_absorbance_formula readings_example "A1" "A2" 0.5%Q 0.2%Q []
                  eq_refl eq_refl)).
Defined.

(** C3 as stated fails at its own example: for the readings 0.5 and 0.2 the
    adjusted absorbance is not 42532.8, neither exactly nor in binary64. *)
Lemma adjusted_absorbance_example_refuted :
  ~ ((exists v : Q, fst (process_replicates readings_example [("A1", "A2")%string]) = [v]
                    /\ v == 42532.8)
     \/ fst (process_replicates readings_example_binary64 [("A1", "A2")%string])
        = [42532.8%float]).
Proof.
  intros [(v & Hv & Heq) | Hf].
  - vm_compute in Hv. injection Hv as <-. vm_compute in Heq. discriminate.
  - vm_compute in Hf. discriminate.
Qed.

(** C5. A pair with an absent reading adds nothing to the returned values:
    they are the values of the other pairs, so their mean is the same; the
    pair is only reported.  ([process_replicates] is total: no error.) *)
Theorem missing_reading_skipped {T : Type} {num : Number T}
    (sheet : gmap string T) (before after : list (string * string))
    (cell_570 cell_600 : string) :
  sheet !! cell_570 = None \/ sheet !! cell_600 = None ->
  let with_pair := process_replicates sheet (before ++ (cell_570, cell_600) :: after) in
  let without := process_replicates sheet (before ++ after) in
  fst with_pair = fst without
  /\ mean (fst with_pair) = mean (fst without)
  /\ length (fst with_pair) <= length (before ++ after)
  /\ In (MissingData cell_570 cell_600) (snd with_pair).
Proof.
  intros Hmissing with_pair without.
  assert (Hnone : adjusted sheet (cell_570, cell_600) = None).
  { unfold adjusted. cbn [fst snd].
    destruct Hmissing as [-> | ->]; [reflexivity | now destruct (sheet !! cell_570)]. }
  assert (Hsame : fst with_pair = fst without).
  { unfold with_pair, without. rewrite !process_replicates_values, !omap_app.
    cbn [omap list_omap]. now rewrite Hnone. }
  split; [exact Hsame|]. split; [now rewrite Hsame|]. split.
  - rewrite Hsame. apply process_replicates_length.
  - apply process_replicates_printed; [|exact Hnone].
    apply in_or_app. right. now left.
Qed.

Lemma missing_reading_skipped_witness :
  let with_pair := process_replicates readings_example
                     ([("A1", "A2")%string] ++ ("A1", "A9")%string :: []) in
  let without := process_replicates readings_example ([("A1", "A2")%string] ++ []) in
  fst with_pair = fst without
  /\ mean (fst with_pair) = mean (fst without)
  /\ length (fst with_pair) <= length ([("A1", "A2")%string] ++ [])
  /\ In (MissingData "A1" "A9") (snd with_pair).
Proof.
  apply (missing_reading_skipped readings_example [("A1", "A2")%string] [] "A1" "A9").
  right. vm_compute. reflexivity.
Defined.

(** ** What holds on every carrier: sorting, percentiles, the filter *)

Section Carrier.

Context {T : Type} {num : Number T}.

Lemma existsb_is_nan_false (a : list T) :
  existsb is_nan a = false <-> Forall (fun x => is_nan x = false) a.
Proof.
  induction a as [|x a IH]; cbn [existsb].
  - split; [constructor | reflexivity].
  - rewrite orb_false_iff, IH. split.
    + intros [Hx Ha]. now constructor.
    + intros H. inversion H. auto.
Qed.

Lemma eqb_refl_not_nan (x : T) : is_nan x = false -> (x ==? x)%num = true.
Proof. unfold is_nan. now destruct (x ==? x)%num. Qed.

(** *** Summation *)

Lemma pairwise_sum_fuel_any (fuel : nat) :
  forall (fuel' : nat) (a : list T),
    (length a <= fuel)%nat -> (length a <= fuel')%nat ->
    pairwise_sum_fuel fuel a = pairwise_sum_fuel fuel' a.
Proof.
  induction fuel as [|fuel IH]; intros fuel' a Hf Hf'.
  - destruct a; [|cbn [length] in Hf; lia]. now destruct fuel'.
  - destruct fuel' as [|fuel'].
    + destruct a; [|cbn [length] in Hf'; lia]. reflexivity.
    + cbn [pairwise_sum_fuel].
      destruct (length a <? 8)%nat; [reflexivity|].
      destruct (Nat.leb_spec (length a) 128) as [Hle | Hgt]; [reflexivity|].
      pose proof (Nat.div_mod_eq (length a) 2) as Hhalf.
      pose proof (Nat.mod_upper_bound (length a) 2 ltac:(lia)) as Hbit.
      pose proof (Nat.div_mod_eq (length a / 2) 8) as Hcut.
      pose proof (Nat.mod_upper_bound (length a / 2) 8 ltac:(lia)) as Hrest.
      f_equal; apply IH; rewrite ?length_firstn, ?length_skipn; lia.
Qed.

(** More fuel than the array is long changes nothing. *)
Lemma pairwise_sum_fuel_enough (fuel : nat) (a : list T) :
  (length a <= fuel)%nat -> pairwise_sum_fuel fuel a = pairwise_sum a.
Proof. intros H. now apply pairwise_sum_fuel_any. Qed.

(** *** Insertion sort *)

Lemma insert_sorted_perm (x : T) l : Permutation (insert_sorted x l) (x :: l).
Proof.
  induction l as [|y l IH]; cbn [insert_sorted]; [reflexivity|].
  destruct (x <=? y)%num; [reflexivity|].
  rewrite IH. apply perm_swap.
Qed.

Lemma sort_perm (a : list T) : Permutation (sort a) a.
Proof.
  induction a as [|x a IH]; [reflexivity|].
  cbn [sort fold_right]. fold (sort a). now rewrite insert_sorted_perm, IH.
Qed.

Lemma sort_length (a : list T) : length (sort a) = length a.
Proof. apply Permutation_length, sort_perm. Qed.

Lemma insert_sorted_ordered (x : T) l :
  ordered_carrier T ->
  is_nan x = false -> Forall (fun y => is_nan y = false) l ->
  StronglySorted (fun a b => (a <=? b)%num = true) l ->
  StronglySorted (fun a b => (a <=? b)%num = true) (insert_sorted x l).
Proof.
  intros (Htotal & Htrans & _) Hx Hl Hsorted.
  induction Hsorted as [|y l Hs IH Hy]; cbn [insert_sorted].
  - constructor; constructor.
  - inversion Hl as [|? ? Hny Hnl]; subst.
    destruct (x <=? y)%num eqn:E.
    + constructor; [now constructor|].
      constructor; [exact E|].
      eapply List.Forall_impl; [|exact Hy]. intros z Hz. cbn beta.
      now apply (Htrans x y z).
    + constructor; [now apply IH|].
      eapply Permutation_Forall; [symmetry; apply insert_sorted_perm|].
      constructor; [|exact Hy].
      destruct (Htotal x y Hx Hny) as [H | H]; [congruence | exact H].
Qed.

(** Data without a NaN is sorted into ascending order. *)
Lemma sort_ordered (a : list T) :
  ordered_carrier T -> existsb is_nan a = false ->
  StronglySorted (fun x y => (x <=? y)%num = true) (sort a).
Proof.
  intros Hord Hnan. apply existsb_is_nan_false in Hnan.
  induction Hnan as [|x a Hx Ha IH]; [constructor|].
  cbn [sort fold_right]. fold (sort a).
  apply insert_sorted_ordered; try assumption.
  eapply Permutation_Forall; [symmetry; apply sort_perm | exact Ha].
Qed.

(** *** Percentiles and the filter *)

Lemma percentile_interpolate (a : list T) (q : Z) :
  existsb is_nan a = false -> percentile a q = interpolate (sort a) q.
Proof.
  intros Hnan. unfold percentile, interpolate, lerp.
  now rewrite Hnan, sort_length.
Qed.

Lemma percentile_of_nan (a : list T) (q : Z) :
  existsb is_nan a = true -> percentile a q = nan.
Proof. intros Hnan. unfold percentile. now rewrite Hnan. Qed.

Lemma filter_outliers_within (a : list T) :
  filter_outliers a
  = List.filter (within_bounds (percentile a 25) (percentile a 75)) a.
Proof. reflexivity. Qed.

Lemma filter_outliers_iff (a : list T) (v : T) :
  In v (filter_outliers a)
  <-> In v a /\ within_bounds (percentile a 25) (percentile a 75) v = true.
Proof. rewrite filter_outliers_within. apply filter_In. Qed.


(** *** The values averaged *)

Lemma filtered_values_off flag name (values : list T) :
  flag = false \/ (length values <= 2)%nat ->
  filtered_values flag name values = (values, []).
Proof.
  intros H. unfold filtered_values.
  destruct flag; cbn [andb]; [|reflexivity].
  destruct H as [H | H]; [discriminate|].
  now rewrite (proj2 (Nat.ltb_ge 2 (length values)) H).
Qed.

Lemma filtered_values_on name (values : list T) :
  (2 < length values)%nat ->
  fst (filtered_values true name values) = filter_outliers values.
Proof.
  intros H. unfold filtered_values. cbn [andb].
  rewrite (proj2 (Nat.ltb_lt 2 (length values)) H).
  now rewrite Out_bind_fst.
Qed.

(** *** Python's set difference *)

Lemma set_difference_sound (xs ys : list T) (v : T) :
  In v (set_difference xs ys) -> In v xs /\ existsb (eqb v) ys = false.
Proof.
  induction xs as [|x xs IH]; [intros []|]. cbn [set_difference].
  destruct (existsb (eqb x) ys) eqn:Ey; cbn [orb].
  - intros Hin. destruct (IH Hin). split; [now right | assumption].
  - destruct (existsb (eqb x) (set_difference xs ys)).
    + intros Hin. destruct (IH Hin). split; [now right | assumption].
    + intros [<- | Hin]; [split; [now left | exact Ey]|].
      destruct (IH Hin). split; [now right | assumption].
Qed.

Lemma set_difference_complete (xs ys : list T) (x : T) :
  In x xs -> is_nan x = false -> existsb (eqb x) ys = false ->
  exists w, In w (set_difference xs ys) /\ (x ==? w)%num = true.
Proof.
  induction xs as [|x0 xs IH]; [intros []|]. intros Hin Hnan Hx.
  cbn [set_difference].
  assert (Htail : In x xs ->
            exists w, In w (if existsb (eqb x0) ys
                               || existsb (eqb x0) (set_difference xs ys)
                            then set_difference xs ys
                            else x0 :: set_difference xs ys)
                      /\ (x ==? w)%num = true).
  { intros H. destruct (IH H Hnan Hx) as (w & Hw & Heq). exists w.
    split; [|exact Heq]. destruct (_ || _); [exact Hw | now right]. }
  destruct Hin as [-> | Hin]; [|now apply Htail].
  rewrite Hx. cbn [orb].
  destruct (existsb (eqb x) (set_difference xs ys)) eqn:Ed.
  - apply existsb_exists in Ed as (w & Hw & Heq). now exists w.
  - exists x. split; [now left | now apply eqb_refl_not_nan].
Qed.

Lemma set_difference_distinct (xs ys : list T) :
  ForallOrdPairs (fun a b => (a ==? b)%num = false) (set_difference xs ys).
Proof.
  induction xs as [|x xs IH]; [constructor|]. cbn [set_difference].
  destruct (existsb (eqb x) ys); cbn [orb]; [exact IH|].
  destruct (existsb (eqb x) (set_difference xs ys)) eqn:Ed; [exact IH|].
  constructor; [|exact IH]. apply List.Forall_forall. intros w Hw.
  destruct (x ==? w)%num eqn:E; [|reflexivity].
  assert (Hex : existsb (eqb x) (set_difference xs ys) = true)
    by (apply existsb_exists; eauto).
  congruence.
Qed.

(** Values that are [==] pass or fail the two tests together. *)
Lemma within_bounds_eqb (Q1 Q3 x y : T) :
  ordered_carrier T -> (x ==? y)%num = true ->
  within_bounds Q1 Q3 x = within_bounds Q1 Q3 y.
Proof.
  intros (_ & _ & Hcompat) Heq. unfold within_bounds.
  destruct (Hcompat x y (Q1 - of_Z 3 / of_Z 2 * (Q3 - Q1))%num Heq) as [-> _].
  destruct (Hcompat x y (Q3 + of_Z 3 / of_Z 2 * (Q3 - Q1))%num Heq) as [_ ->].
  reflexivity.
Qed.

End Carrier.

(** ** The order of the two carriers *)

Section Order.

Lemma SFcompare_not_nan f1 f2 c :
  SFcompare f1 f2 = Some c -> f1 <> S754_nan /\ f2 <> S754_nan.
Proof.
  intros H. split; intros ->; [|destruct f1]; discriminate.
Qed.

Ltac key_cases :=
  repeat match goal with
         | s : bool |- _ => destruct s
         | |- context [Z.compare ?a ?b] => destruct (Z.compare_spec a b)
         | |- context [Pos.compare_cont Eq ?a ?b] =>
             change (Pos.compare_cont Eq a b) with (Pos.compare a b);
             destruct (Pos.compare_spec a b)
         end.

Lemma SFleb_key f1 f2 :
  f1 <> S754_nan -> f2 <> S754_nan ->
  (SFleb f1 f2 = true <-> key_le (SF_key f1) (SF_key f2)).
Proof.
  intros H1 H2. unfold SFleb.
  destruct f1 as [s1|s1| |s1 m1 e1], f2 as [s2|s2| |s2 m2 e2]; try congruence;
    repeat match goal with s : bool |- _ => destruct s end;
    cbn [SFcompare SF_key key_le]; key_cases; cbn [CompOpp];
    split; intros Hyp; try reflexivity; try discriminate; try lia.
Qed.

Lemma SFeqb_key f1 f2 :
  f1 <> S754_nan -> f2 <> S754_nan ->
  (SFeqb f1 f2 = true <-> SF_key f1 = SF_key f2).
Proof.
  intros H1 H2. unfold SFeqb.
  destruct f1 as [s1|s1| |s1 m1 e1], f2 as [s2|s2| |s2 m2 e2]; try congruence;
    repeat match goal with s : bool |- _ => destruct s end;
    cbn [SFcompare SF_key]; key_cases; cbn [CompOpp];
    split; intros Hyp; try reflexivity; try discriminate;
    try (injection Hyp; intros; lia); try (f_equal; [f_equal|]; lia).
Qed.

Lemma float_not_nan (x : float) :
  is_nan x = false <-> Prim2SF x <> S754_nan.
Proof.
  unfold is_nan. cbn [eqb binary64_Number]. rewrite FloatAxioms.eqb_spec. split.
  - intros H Hnan. rewrite Hnan in H. discriminate.
  - intros H. now rewrite (proj2 (SFeqb_key _ _ H H) eq_refl).
Qed.

Lemma float_leb_key (x y : float) :
  is_nan x = false -> is_nan y = false ->
  (PrimFloat.leb x y = true <-> key_le (SF_key (Prim2SF x)) (SF_key (Prim2SF y))).
Proof.
  intros Hx Hy. rewrite leb_spec. apply SFleb_key; now apply float_not_nan.
Qed.

Lemma float_leb_true (x y : float) :
  PrimFloat.leb x y = true -> is_nan x = false /\ is_nan y = false.
Proof.
  rewrite leb_spec. unfold SFleb.
  destruct (SFcompare (Prim2SF x) (Prim2SF y)) as [c|] eqn:E; [|discriminate].
  intros _. apply SFcompare_not_nan in E as [Hx Hy].
  split; now apply float_not_nan.
Qed.

Lemma float_eqb_true (x y : float) :
  PrimFloat.eqb x y = true ->
  is_nan x = false /\ is_nan y = false /\ SF_key (Prim2SF x) = SF_key (Prim2SF y).
Proof.
  rewrite FloatAxioms.eqb_spec. intros H.
  assert (Hnan : Prim2SF x <> S754_nan /\ Prim2SF y <> S754_nan).
  { unfold SFeqb in H.
    destruct (SFcompare (Prim2SF x) (Prim2SF y)) as [c|] eqn:E; [|discriminate].
    now apply SFcompare_not_nan in E. }
  destruct Hnan as [Hx Hy].
  split; [now apply float_not_nan|]. split; [now apply float_not_nan|].
  now apply SFeqb_key.
Qed.

(** binary64: [<=] is total off NaN and transitive, and [==] respects it. *)
Lemma binary64_ordered : ordered_carrier float.
Proof.
  unfold ordered_carrier. cbn [leb eqb binary64_Number]. split; [|split].
  - intros x y Hx Hy. rewrite !float_leb_key by assumption.
    destruct (SF_key (Prim2SF x)) as [[a1 b1] c1].
    destruct (SF_key (Prim2SF y)) as [[a2 b2] c2]. cbn [key_le]. lia.
  - intros x y z Hxy Hyz.
    destruct (float_leb_true _ _ Hxy) as [Hx Hy].
    destruct (float_leb_true _ _ Hyz) as [_ Hz].
    rewrite float_leb_key in Hxy, Hyz |- * by assumption.
    destruct (SF_key (Prim2SF x)) as [[a1 b1] c1].
    destruct (SF_key (Prim2SF y)) as [[a2 b2] c2].
    destruct (SF_key (Prim2SF z)) as [[a3 b3] c3]. cbn [key_le] in *. lia.
  - intros x y z Heq. apply float_eqb_true in Heq as (Hx & Hy & Hkey).
    split; apply eq_true_iff_eq; split; intros H;
      destruct (float_leb_true _ _ H) as [H1 H2];
      rewrite float_leb_key in H |- * by assumption;
      (rewrite <- Hkey || rewrite Hkey); exact H.
Qed.

(** The exact rationals have the same laws. *)
Lemma Q_ordered : ordered_carrier Q.
Proof.
  unfold ordered_carrier. cbn [leb eqb Q_Number]. split; [|split].
  - intros x y _ _. rewrite !Qle_bool_iff.
    destruct (Qlt_le_dec x y) as [H | H]; [left; now apply Qlt_le_weak | now right].
  - intros x y z. rewrite !Qle_bool_iff. apply Qle_trans.
  - intros x y z Heq. apply Qeq_bool_iff in Heq.
    split; apply eq_true_iff_eq; rewrite !Qle_bool_iff; now rewrite Heq.
Qed.

End Order.

(** ** Exact arithmetic: sorting, percentiles and the interquartile filter *)

Section Exact.

Local Open Scope Q_scope.

Ltac exact_ops :=
  cbn [add sub mul div leb eqb of_Z rint Q_Number] in *.

Lemma existsb_is_nan_Q (a : list Q) : existsb is_nan a = false.
Proof.
  induction a as [|x a IH]; [reflexivity|]. cbn [existsb]. rewrite IH.
  unfold is_nan. exact_ops.
  now rewrite (proj2 (Qeq_bool_iff x x) (Qeq_refl x)).
Qed.

Lemma lerp_Q (a b t : Q) : lerp a b t == a + (b - a) * t.
Proof. unfold lerp. exact_ops. destruct (Qle_bool _ t); ring. Qed.

(** *** Insertion sort *)

Lemma insert_sorted_sorted (x : Q) l :
  StronglySorted Qle l -> StronglySorted Qle (insert_sorted x l).
Proof.
  induction 1 as [|y l Hl IH Hy]; cbn [insert_sorted].
  - constructor; constructor.
  - exact_ops. destruct (Qle_bool x y) eqn:E.
    + apply Qle_bool_iff in E. constructor; [now constructor|].
      constructor; [exact E|].
      eapply List.Forall_impl; [|exact Hy]. intros z Hz. cbn beta. lra.
    + assert (Hyx : y <= x).
      { destruct (Qlt_le_dec y x) as [Hlt | Hle]; [lra|].
        apply Qle_bool_iff in Hle. congruence. }
      constructor; [exact IH|].
      eapply Permutation_Forall; [symmetry; apply insert_sorted_perm|].
      now constructor.
Qed.

Lemma sort_sorted (a : list Q) : StronglySorted Qle (sort a).
Proof.
  induction a as [|x a IH]; [constructor|].
  cbn [sort fold_right]. now apply insert_sorted_sorted.
Qed.

Lemma sorted_nth_le (s : list Q) (d : Q) :
  StronglySorted Qle s ->
  forall i j, (i <= j)%nat -> (j < length s)%nat -> nth i s d <= nth j s d.
Proof.
  induction 1 as [|x s Hs IH Hx]; intros i j Hij Hj; cbn [length] in Hj; [lia|].
  destruct i as [|i], j as [|j]; cbn [nth]; try lia.
  - lra.
  - rewrite List.Forall_forall in Hx. apply Hx, nth_In. lia.
  - apply IH; lia.
Qed.

Lemma nth_sort_In (a : list Q) (d : Q) i :
  (i < length a)%nat -> In (nth i (sort a) d) a.
Proof.
  intros Hi. eapply Permutation_in; [apply sort_perm|].
  apply nth_In. now rewrite sort_length.
Qed.

(** *** Percentiles *)

Lemma gamma_Q (v : Z) :
  (of_Z (v mod 100) / of_Z 100)%num == inject_Z v / 100 - inject_Z (v / 100).
Proof.
  exact_ops. rewrite (Z.div_mod v 100) at 2 by lia.
  rewrite inject_Z_plus, inject_Z_mult. change (inject_Z 100) with 100. field.
Qed.

Lemma gamma_range (v : Z) :
  0 <= (of_Z (v mod 100) / of_Z 100)%num < 1.
Proof.
  exact_ops. pose proof (Z.mod_pos_bound v 100 ltac:(lia)) as [Hlo Hhi].
  split.
  - apply Qle_shift_div_l; [reflexivity|]. rewrite Qmult_0_l.
    change 0 with (inject_Z 0). now rewrite <- Zle_Qle.
  - apply Qlt_shift_div_r; [reflexivity|]. rewrite Qmult_1_l.
    now rewrite <- Zlt_Qlt.
Qed.

(** [np.percentile] is the linear interpolation, at the virtual index
    h = (n-1)*q/100, between the sorted values at floor(h) and at the next
    index. *)
Lemma percentile_linear (a : list Q) (q : Z) :
  let n := Z.of_nat (length a) in
  let h := inject_Z ((n - 1) * q) / 100 in
  let previous := Z.to_nat (Qfloor h) in
  let next := Z.to_nat (Z.min (Qfloor h + 1) (n - 1)) in
  percentile a q
  == nth previous (sort a) nan
     + (h - inject_Z (Qfloor h)) * (nth next (sort a) nan - nth previous (sort a) nan).
Proof.
  intros n h previous next. unfold percentile.
  rewrite existsb_is_nan_Q, lerp_Q, gamma_Q.
  assert (Hfloor : Qfloor h = (((n - 1) * q) / 100)%Z).
  { unfold h. change 100 with (inject_Z 100). now rewrite <- Zdiv_Qdiv. }
  unfold previous, next. rewrite Hfloor. fold n. unfold h. ring.
Qed.

Lemma percentile_between (a : list Q) (q : Z) :
  (0 < length a)%nat -> (0 <= q <= 100)%Z ->
  let n := Z.of_nat (length a) in
  let previous := (((n - 1) * q) / 100)%Z in
  let next := Z.min (previous + 1) (n - 1) in
  nth (Z.to_nat previous) (sort a) nan <= percentile a q
  /\ percentile a q <= nth (Z.to_nat next) (sort a) nan.
Proof.
  intros Hn Hq n previous next. unfold percentile.
  rewrite existsb_is_nan_Q, lerp_Q. fold n previous next.
  pose proof (gamma_range ((n - 1) * q)) as [Hg0 Hg1].
  set (g := (of_Z (((n - 1) * q) mod 100) / of_Z 100)%num) in *.
  assert (Hprev : (0 <= previous <= n - 1)%Z).
  { unfold previous. split; [apply Z.div_pos; nia|].
    apply Z.div_le_upper_bound; nia. }
  assert (Hle : nth (Z.to_nat previous) (sort a) nan
                <= nth (Z.to_nat next) (sort a) nan).
  { apply sorted_nth_le; [apply sort_sorted| |rewrite sort_length]; unfold next; lia. }
  split; nra.
Qed.

(** With three values or more, a data value lies between the quartiles. *)
Lemma value_between_quartiles (a : list Q) :
  (2 < length a)%nat ->
  exists v, In v a /\ percentile a 25 <= v /\ v <= percentile a 75.
Proof.
  intros Hn. set (n := Z.of_nat (length a)).
  pose proof (percentile_between a 25 ltac:(lia) ltac:(lia)) as [_ H1].
  pose proof (percentile_between a 75 ltac:(lia) ltac:(lia)) as [H3 _].
  cbv zeta in H1, H3. fold n in H1, H3.
  assert (Hn3 : (3 <= n)%Z) by (unfold n; lia).
  assert (Hnext : Z.min ((n - 1) * 25 / 100 + 1) (n - 1) = ((n - 1) * 25 / 100 + 1)%Z).
  { apply Z.min_l. pose proof (Z.div_mod ((n - 1) * 25) 100 ltac:(lia)).
    pose proof (Z.mod_pos_bound ((n - 1) * 25) 100 ltac:(lia)). lia. }
  rewrite Hnext in H1.
  assert (Hidx : ((n - 1) * 25 / 100 + 1 <= (n - 1) * 75 / 100 <= n - 1)%Z).
  { pose proof (Z.div_mod ((n - 1) * 25) 100 ltac:(lia)).
    pose proof (Z.mod_pos_bound ((n - 1) * 25) 100 ltac:(lia)).
    pose proof (Z.div_mod ((n - 1) * 75) 100 ltac:(lia)).
    pose proof (Z.mod_pos_bound ((n - 1) * 75) 100 ltac:(lia)). lia. }
  assert (H0 : (0 <= (n - 1) * 25 / 100)%Z) by (apply Z.div_pos; lia).
  exists (nth (Z.to_nat ((n - 1) * 25 / 100 + 1)) (sort a) nan).
  split; [apply nth_sort_In; unfold n in *; lia|]. split; [exact H1|].
  eapply Qle_trans; [|exact H3].
  apply sorted_nth_le; [apply sort_sorted| |rewrite sort_length]; unfold n in *; lia.
Qed.

(** *** The filter *)

Lemma filter_outliers_In (a : list Q) (v : Q) :
  let Q1 := percentile a 25 in
  let Q3 := percentile a 75 in
  let IQR := Q3 - Q1 in
  In v (filter_outliers a)
  <-> In v a /\ Q1 - 1.5 * IQR <= v <= Q3 + 1.5 * IQR.
Proof.
  intros Q1 Q3 IQR. unfold filter_outliers. rewrite filter_In.
  exact_ops. fold Q1 Q3. rewrite andb_true_iff, !Qle_bool_iff.
  assert (H15 : inject_Z 3 / inject_Z 2 == 1.5) by reflexivity.
  unfold IQR. rewrite H15. tauto.
Qed.

Lemma between_quartiles_kept (a : list Q) (v : Q) :
  In v a -> percentile a 25 <= v -> v <= percentile a 75 ->
  In v (filter_outliers a).
Proof.
  intros Hin H1 H3. apply filter_outliers_In. split; [exact Hin|]. lra.
Qed.

Lemma filter_outliers_nonempty (a : list Q) :
  (2 < length a)%nat -> filter_outliers a <> [].
Proof.
  intros Hn. destruct (value_between_quartiles a Hn) as (v & Hin & H1 & H3).
  pose proof (between_quartiles_kept a v Hin H1 H3) as Hkept.
  intros Hnil. rewrite Hnil in Hkept. exact Hkept.
Qed.

End Exact.

(** ** The run *)

Section Run.

Context {T : Type} {num : Number T}.

(** Reading a selection prints nothing but warnings about missing data and
    the report of a failed selection. *)
Lemma process_replicates_messages (sheet : gmap string T) cells :
  Forall reading_message (snd (process_replicates sheet cells)).
Proof.
  induction cells as [|[a b] rest IH]; [constructor|].
  cbn [process_replicates].
  destruct (sheet !! a); [destruct (sheet !! b)|];
    rewrite Out_bind_snd; apply Forall_app; split;
    cbn; auto using Forall_nil, Forall_cons; repeat constructor.
Qed.

Lemma read_selection_messages (sheet : gmap string T) address :
  Forall reading_message (snd (read_selection sheet address)).
Proof.
  unfold read_selection.
  destruct (get_replicate_cells_from_range _).
  - rewrite Out_bind_snd. apply Forall_app. split;
      [apply process_replicates_messages | constructor].
  - repeat constructor.
Qed.

(** Every collected sample gets one row, labelled with its name, in the
    order of collection. *)
Lemma sample_rows_labels flag (average : T) samples_data :
  map row_label (fst (sample_rows flag average samples_data)) = map fst samples_data.
Proof.
  induction samples_data as [|[name values] rest IH]; [reflexivity|].
  cbn [sample_rows]. rewrite !Out_bind_fst. cbn [mret Out_ret fst map].
  now rewrite IH.
Qed.


(** The three ways [main] goes on after the sheet is found. *)
Lemma main_no_control_data (s : session T) sheet :
  workbook s !! sheet_name s = Some sheet ->
  fst (read_selection sheet (positive_control_selection s)) = Some [] ->
  main s = (None, snd (read_selection sheet (positive_control_selection s))
                  ++ [NoControlData]).
Proof.
  intros Hsheet Hread. unfold main. rewrite Hsheet.
  apply injective_projections.
  - rewrite Out_bind_fst, Hread. reflexivity.
  - rewrite Out_bind_snd, Hread. reflexivity.
Qed.

Lemma main_table (s : session T) table :
  fst (main s) = Some table ->
  exists sheet control_values,
    workbook s !! sheet_name s = Some sheet
    /\ fst (read_selection sheet (positive_control_selection s)) = Some control_values
    /\ control_values <> []
    /\ table
       = [Text "Sample"; Text "Cell Viability %"]
         :: [Text (positive_control_name s); Value (of_Z 100)]
         :: fst (sample_rows (remove_outliers s) (mean control_values)
                   (fst (collect_samples sheet (samples s)))).
Proof.
  unfold main. destruct (workbook s !! sheet_name s) as [sheet|]; [|discriminate].
  rewrite Out_bind_fst.
  destruct (fst (read_selection sheet (positive_control_selection s)))
    as [[|v vs]|] eqn:Hread; try discriminate.
  rewrite !Out_bind_fst. cbn [mret Out_ret fst]. intros [= <-].
  exists sheet, (v :: vs). repeat split; try assumption. discriminate.
Qed.

End Run.

(** *** The table, row by row *)

Section Rows.

Context {T : Type} {num : Number T}.

Lemma sample_rows_map flag (control_values : list T) samples_data :
  fst (sample_rows flag (mean control_values) samples_data)
  = map (fun sample =>
           [Text (fst sample);
            Value (reported_percentage flag control_values sample)])
      samples_data.
Proof.
  induction samples_data as [|[name values] rest IH]; [reflexivity|].
  cbn [sample_rows]. rewrite !Out_bind_fst. cbn [mret Out_ret fst map].
  now rewrite IH.
Qed.

(** A sample is collected with at least one value. *)
Lemma collect_samples_nonempty (sheet : gmap string T) entries :
  Forall (fun sample => snd sample <> []) (fst (collect_samples sheet entries)).
Proof.
  induction entries as [|[name address] rest IH]; [constructor|].
  cbn [collect_samples]. rewrite Out_bind_fst.
  destruct (fst (read_selection sheet address)) as [[|v vs]|]; [| |exact IH].
  - now rewrite Out_bind_fst.
  - rewrite Out_bind_fst. cbn [mret Out_ret fst]. constructor; [discriminate | exact IH].
Qed.

Lemma main_rows (s : session T) table :
  fst (main s) = Some table ->
  exists sheet control_values,
    workbook s !! sheet_name s = Some sheet
    /\ fst (read_selection sheet (positive_control_selection s)) = Some control_values
    /\ control_values <> []
    /\ Forall (fun sample => snd sample <> []) (fst (collect_samples sheet (samples s)))
    /\ table
       = [Text "Sample"; Text "Cell Viability %"]
         :: [Text (positive_control_name s); Value (of_Z 100)]
         :: map (fun sample =>
                   [Text (fst sample);
                    Value (reported_percentage (remove_outliers s) control_values sample)])
              (fst (collect_samples sheet (samples s))).
Proof.
  intros Htable.
  destruct (main_table s table Htable) as (sheet & control_values & Hs & Hc & Hne & ->).
  exists sheet, control_values. repeat split; try assumption.
  - apply collect_samples_nonempty.
  - now rewrite sample_rows_map.
Qed.

(** The messages of a run that gets to its table. *)
Lemma main_printed (s : session T) table :
  fst (main s) = Some table ->
  exists sheet control_values,
    workbook s !! sheet_name s = Some sheet
    /\ fst (read_selection sheet (positive_control_selection s)) = Some control_values
    /\ snd (main s)
       = snd (read_selection sheet (positive_control_selection s))
         ++ snd (collect_samples sheet (samples s))
         ++ snd (sample_rows (remove_outliers s) (mean control_values)
                   (fst (collect_samples sheet (samples s))))
         ++ [Results table].
Proof.
  unfold main. destruct (workbook s !! sheet_name s) as [sheet|]; [|discriminate].
  rewrite Out_bind_fst, Out_bind_snd.
  destruct (fst (read_selection sheet (positive_control_selection s)))
    as [[|v vs]|] eqn:Hread; try discriminate.
  rewrite !Out_bind_fst, !Out_bind_snd. cbn [mret Out_ret print fst snd].
  intros [= <-]. exists sheet, (v :: vs).
  split; [reflexivity|]. split; [exact Hread|].
  now rewrite app_nil_r.
Qed.

End Rows.

(** C6. When the positive control has no valid replicate value the run stops
    there: it prints "No valid data found for positive control. Exiting."
    after the warnings of the control's own selection, and produces no table;
    nothing of it depends on the samples. *)
Theorem empty_control_aborts {T : Type} {num : Number T} (s : session T)
    (sheet : gmap string T) :
  workbook s !! sheet_name s = Some sheet ->
  fst (read_selection sheet (positive_control_selection s)) = Some [] ->
  fst (main s) = None
  /\ snd (main s)
     = snd (read_selection sheet (positive_control_selection s)) ++ [NoControlData]
  /\ (forall table, ~ In (Results table) (snd (main s)))
  /\ (forall flag entries,
        main {| workbook := workbook s; sheet_name := sheet_name s;
                positive_control_name := positive_control_name s;
                positive_control_selection := positive_control_selection s;
                remove_outliers := flag; samples := entries |} = main s).
Proof.
  intros Hsheet Hread. rewrite (main_no_control_data s sheet Hsheet Hread).
  split; [reflexivity|]. split; [reflexivity|]. split.
  - intros table Hin. cbn [snd] in Hin. apply in_app_or in Hin as [Hin | [Hin | []]].
    + pose proof (read_selection_messages sheet (positive_control_selection s)) as Hall.
      rewrite List.Forall_forall in Hall. exact (Hall _ Hin).
    + discriminate.
  - intros flag entries.
    exact (main_no_control_data
             {| workbook := workbook s; sheet_name := sheet_name s;
                positive_control_name := positive_control_name s;
                positive_control_selection := positive_control_selection s;
                remove_outliers := flag; samples := entries |}
             sheet Hsheet Hread).
Qed.

Lemma empty_control_aborts_witness :
  fst (main empty_control_session) = None
  /\ snd (main empty_control_session)
     = [MissingData "B1" "B2"; MissingData "B3" "B4"; NoControlData].
Proof.
  pose proof (empty_control_aborts empty_control_session example_sheet
                ltac:(vm_compute; reflexivity) ltac:(vm_compute; reflexivity))
    as (Hvalue & Hprinted & _).
  split; [exact Hvalue|]. rewrite Hprinted. vm_compute. reflexivity.
Defined.



(** ** Viability aggregator, over exact numbers *)

Section Aggregator.

Local Open Scope Q_scope.

Lemma fold_left_Qplus (a : list Q) (acc : Q) :
  fold_left Qplus a acc == acc + fold_right Qplus 0 a.
Proof.
  revert acc. induction a as [|x a IH]; intros acc; cbn [fold_left fold_right].
  - ring.
  - rewrite IH. ring.
Qed.

Lemma fold_right_Qplus_app (a b : list Q) :
  fold_right Qplus 0 (a ++ b) == fold_right Qplus 0 a + fold_right Qplus 0 b.
Proof.
  induction a as [|x a IH]; cbn [app fold_right]; [ring|]. rewrite IH. ring.
Qed.

Lemma fold_right_Qplus_split (n : nat) (a : list Q) :
  fold_right Qplus 0 a
  == fold_right Qplus 0 (firstn n a) + fold_right Qplus 0 (skipn n a).
Proof. now rewrite <- fold_right_Qplus_app, firstn_skipn. Qed.

Lemma zip_add_Q (r c : list Q) :
  length r = length c ->
  length (zip_add r c) = length r
  /\ fold_right Qplus 0 (zip_add r c)
     == fold_right Qplus 0 r + fold_right Qplus 0 c.
Proof.
  revert c. induction r as [|x r IH]; intros [|y c] Hlen; try discriminate.
  - split; [reflexivity|]. cbn. ring.
  - injection Hlen as Hlen. destruct (IH c Hlen) as [Hl Hs].
    cbn [zip_add length fold_right]. split; [now rewrite Hl|].
    cbn [add Q_Number]. rewrite Hs. ring.
Qed.

Lemma add_blocks_Q (blocks : nat) :
  forall r a : list Q,
    length r = 8%nat -> (8 * blocks <= length a)%nat ->
    length (fst (add_blocks r a blocks)) = 8%nat
    /\ fold_right Qplus 0 (fst (add_blocks r a blocks))
       + fold_right Qplus 0 (snd (add_blocks r a blocks))
       == fold_right Qplus 0 r + fold_right Qplus 0 a.
Proof.
  induction blocks as [|k IH]; intros r a Hr Ha; cbn [add_blocks].
  - split; [exact Hr | reflexivity].
  - assert (H8 : length (firstn 8 a) = 8%nat) by (rewrite length_firstn; lia).
    destruct (zip_add_Q r (firstn 8 a)) as [Hl Hs]; [congruence|].
    destruct (IH (zip_add r (firstn 8 a)) (skipn 8 a)) as [Hl' Hs'].
    + congruence.
    + rewrite length_skipn. lia.
    + split; [exact Hl'|]. rewrite Hs', Hs, (fold_right_Qplus_split 8 a). ring.
Qed.

Lemma block_sum_Q (a : list Q) : block_sum a == fold_right Qplus 0 a.
Proof.
  unfold block_sum.
  destruct (add_blocks (firstn 8 a) (skipn 8 a) (length a / 8 - 1)) as [r rest] eqn:E.
  assert (Hfall : fold_left add a (of_Z 0) == fold_right Qplus 0 a).
  { cbn [add of_Z Q_Number]. rewrite fold_left_Qplus. change (inject_Z 0) with 0. ring. }
  destruct (Nat.lt_ge_cases (length a) 8) as [Hshort | Hlong].
  - rewrite (Nat.div_small _ _ Hshort) in E. cbn [Nat.sub add_blocks] in E.
    rewrite firstn_all2 in E by lia. injection E as <- <-.
    destruct a as [|? [|? [|? [|? [|? [|? [|? [|? [|? a]]]]]]]]];
      cbn [length] in Hshort; try exact Hfall; lia.
  - pose proof (Nat.div_mod_eq (length a) 8) as Hdiv.
    pose proof (Nat.mod_upper_bound (length a) 8 ltac:(lia)) as Hmod.
    destruct (add_blocks_Q (length a / 8 - 1) (firstn 8 a) (skipn 8 a)) as [Hl Hs].
    + rewrite length_firstn. lia.
    + rewrite length_skipn. lia.
    + rewrite E in Hl, Hs. cbn [fst snd] in Hl, Hs.
      rewrite (fold_right_Qplus_split 8 a), <- Hs.
      destruct r as [|r0 [|r1 [|r2 [|r3 [|r4 [|r5 [|r6 [|r7 [|r8 r]]]]]]]]];
        try discriminate.
      cbn [add Q_Number fold_right]. rewrite fold_left_Qplus. ring.
Qed.

Lemma pairwise_sum_fuel_Q (fuel : nat) :
  forall a : list Q, pairwise_sum_fuel fuel a == fold_right Qplus 0 a.
Proof.
  assert (Hshort : forall a : list Q,
            fold_left add a (of_Z 0) == fold_right Qplus 0 a).
  { intros a. cbn [add of_Z Q_Number]. rewrite fold_left_Qplus.
    change (inject_Z 0) with 0. ring. }
  induction fuel as [|fuel IH]; intros a; cbn [pairwise_sum_fuel];
    destruct (length a <? 8)%nat; try apply Hshort;
    destruct (length a <=? 128)%nat; try apply block_sum_Q.
  cbn [add Q_Number]. rewrite !IH. symmetry. apply fold_right_Qplus_split.
Qed.

Lemma mean_spec_mean (a : list Q) : mean a == spec_mean a.
Proof.
  unfold mean, spec_mean, sum, pairwise_sum. cbn [add div of_Z Q_Number].
  rewrite pairwise_sum_fuel_Q. change (inject_Z 0) with 0. now rewrite Qplus_0_l.
Qed.

Lemma percentile_spec_percentile (a : list Q) (p : Z) :
  percentile a p == spec_percentile (sort a) p.
Proof.
  rewrite percentile_linear. unfold spec_percentile. rewrite sort_length.
  reflexivity.
Qed.

(** *** Rounding *)

Lemma Qrint_comp (x y : Q) : x == y -> Qrint x = Qrint y.
Proof.
  intros H. unfold Qrint. rewrite (Qfloor_comp x y H).
  assert (Hcmp : (x - inject_Z (Qfloor y) ?= 1 # 2) = (y - inject_Z (Qfloor y) ?= 1 # 2)).
  { apply Qcompare_comp; [|reflexivity]. now apply Qplus_comp. }
  now rewrite Hcmp.
Qed.

Lemma Qrint_nearest (x : Q) :
  exists k : Z,
    Qrint x = inject_Z k
    /\ Qabs (x - inject_Z k) <= 1 # 2
    /\ (Qabs (x - inject_Z k) == 1 # 2 -> Z.even k = true).
Proof.
  unfold Qrint. pose proof (Qfloor_le x) as Hlo. pose proof (Qlt_floor x) as Hhi.
  set (f := Qfloor x) in *. rewrite inject_Z_plus in Hhi.
  change (inject_Z 1) with 1 in Hhi.
  destruct (Qcompare_spec (x - inject_Z f) (1 # 2)) as [Heq | Hlt | Hgt].
  - destruct (Z.even f) eqn:Heven.
    + exists f. split; [reflexivity|]. split; [|auto].
      apply Qabs_Qle_condition. split; lra.
    + exists (f + 1)%Z. split; [reflexivity|]. split.
      * apply Qabs_Qle_condition. rewrite inject_Z_plus.
        change (inject_Z 1) with 1. split; lra.
      * intros _. rewrite Z.even_add, Heven. reflexivity.
  - exists f. split; [reflexivity|]. split.
    + apply Qabs_Qle_condition. split; lra.
    + intros Htie. rewrite Qabs_pos in Htie by lra. lra.
  - exists (f + 1)%Z. split; [reflexivity|]. rewrite inject_Z_plus.
    change (inject_Z 1) with 1. split.
    + apply Qabs_Qle_condition. split; lra.
    + intros Htie. rewrite Qabs_neg in Htie by lra. lra.
Qed.

Lemma round_tenths (x : Q) : rounded_to_tenths x (round x 1).
Proof.
  unfold round. cbn [mul div of_Z rint Q_Number].
  change (inject_Z (10 ^ Z.of_nat 1)) with 10.
  destruct (Qrint_nearest (x * 10)) as (k & Hk & Hnear & Htie).
  exists k. rewrite Hk. split; [reflexivity|]. split; assumption.
Qed.

Lemma rounded_to_tenths_comp (x y r : Q) :
  x == y -> rounded_to_tenths x r -> rounded_to_tenths y r.
Proof.
  intros Hxy (k & Hr & Hnear & Htie). exists k. rewrite <- Hxy. auto.
Qed.

(** *** The values averaged *)

Lemma filtered_values_nonempty flag name (values : list Q) :
  values <> [] -> fst (filtered_values flag name values) <> [].
Proof.
  intros Hne. destruct flag.
  - destruct (Nat.ltb_spec 2 (length values)) as [Hlt | Hge].
    + rewrite filtered_values_on by exact Hlt. now apply filter_outliers_nonempty.
    + rewrite filtered_values_off by (right; lia). exact Hne.
  - rewrite filtered_values_off by now left. exact Hne.
Qed.

End Aggregator.

(** ** The filter and the percentage on the numbers the script computes with *)

Section ExactReading.

Local Open Scope Q_scope.

(** In exact arithmetic the percentage reported is the exact ratio, in
    percent, rounded to tenths. *)
Lemma reported_percentage_exact flag (control_values : list Q)
    (sample : string * list Q) :
  ~ spec_mean control_values == 0 ->
  rounded_to_tenths
    (100 * spec_mean (fst (filtered_values flag (fst sample) (snd sample)))
     / spec_mean control_values)
    (reported_percentage flag control_values sample).
Proof.
  intros Hmean. unfold reported_percentage, viability_percentage.
  eapply rounded_to_tenths_comp; [|apply round_tenths].
  cbn [mul div of_Z Q_Number]. rewrite !mean_spec_mean.
  change (inject_Z 100) with 100. now field.
Qed.

Lemma exact_interval_kept name (exact : list Q) (v : Q) :
  (2 < length exact)%nat ->
  let q1 := spec_percentile (sort exact) 25 in
  let q3 := spec_percentile (sort exact) 75 in
  In v (fst (filtered_values true name exact))
  <-> In v exact /\ q1 - 1.5 * (q3 - q1) <= v /\ v <= q3 + 1.5 * (q3 - q1).
Proof.
  intros Hn q1 q3. rewrite filtered_values_on by exact Hn.
  rewrite filter_outliers_In. cbv zeta.
  rewrite !percentile_spec_percentile. fold q1 q3. tauto.
Qed.

Lemma tie_rounds_up : rounded_to_tenths 28.75 28.8.
Proof.
  exists 288%Z. split; [vm_compute; reflexivity|]. split; [|reflexivity].
  apply Qabs_Qle_condition. split; vm_compute; discriminate.
Qed.

Lemma tie_not_rounded_down : ~ rounded_to_tenths 28.75 28.7.
Proof.
  intros (k & Hr & _ & Htie).
  assert (Hk : k = 287%Z).
  { apply inject_Z_injective.
    assert (H : inject_Z k == 28.7 * 10) by (rewrite Hr; field).
    rewrite H. reflexivity. }
  subst k. specialize (Htie ltac:(vm_compute; reflexivity)). discriminate Htie.
Qed.

End ExactReading.




(** C4, as the code has it.  Outliers are removed only when the user asked
    for it and the sample has more than two values; otherwise all values are
    used and nothing is reported.  When they are removed, the values kept are
    exactly those that pass the two comparisons with Tmin = Q1 - 1.5 IQR and
    Tmax = Q3 + 1.5 IQR, bounds that are computed on the carrier from
    IQR = Q3 - Q1, in the order of the values.  For values without a NaN, Q1
    and Q3 are numpy's linear interpolation at 25 and 75 over the values
    sorted in ascending order; with a NaN among them both are NaN.  The rows
    of the table are averaged over the values kept.  In exact arithmetic the
    values kept are those of the exact closed interval.  On
    [10, 12, 11, 13, 100], in binary64, the quartiles are 11 and 13, the
    value 100 goes and the mean is taken over 10, 11, 12, 13. *)
Theorem outliers_removed_by_computed_bounds {T : Type} {num : Number T}
    (flag : bool) (name : string) (values : list T) :
  let kept := fst (filtered_values flag name values) in
  let Q1 := percentile values 25 in
  let Q3 := percentile values 75 in
  let IQR := (Q3 - Q1)%num in
  let Tmin := (Q1 - of_Z 3 / of_Z 2 * IQR)%num in
  let Tmax := (Q3 + of_Z 3 / of_Z 2 * IQR)%num in
  (flag = false \/ (length values <= 2)%nat ->
     filtered_values flag name values = (values, []))
  /\ (flag = true -> (2 < length values)%nat ->
      kept = List.filter (fun v => ((Tmin <=? v) && (v <=? Tmax))%num) values
      /\ (forall v, In v kept
                    <-> In v values
                        /\ (Tmin <=? v)%num = true /\ (v <=? Tmax)%num = true))
  /\ (existsb is_nan values = false ->
      Permutation (sort values) values
      /\ (ordered_carrier T ->
          StronglySorted (fun x y => (x <=? y)%num = true) (sort values))
      /\ Q1 = interpolate (sort values) 25
      /\ Q3 = interpolate (sort values) 75)
  /\ (existsb is_nan values = true -> Q1 = nan /\ Q3 = nan)
  /\ (forall (s : session T) table,
        fst (main s) = Some table ->
        exists sheet control_values,
          workbook s !! sheet_name s = Some sheet
          /\ fst (read_selection sheet (positive_control_selection s))
             = Some control_values
          /\ table
             = [Text "Sample"; Text "Cell Viability %"]
               :: [Text (positive_control_name s); Value (of_Z 100)]
               :: map (fun sample =>
                         let averaged :=
                           fst (filtered_values (remove_outliers s)
                                  (fst sample) (snd sample)) in
                         [Text (fst sample);
                          Value (viability_percentage (mean averaged)
                                   (mean control_values))])
                    (fst (collect_samples sheet (samples s))))
  /\ ordered_carrier float
  /\ ordered_carrier Q
  /\ (forall exact : list Q,
        (2 < length exact)%nat ->
        let sorted := sort exact in
        let q1 := spec_percentile sorted 25 in
        let q3 := spec_percentile sorted 75 in
        StronglySorted Qle sorted
        /\ percentile exact 25 == q1 /\ percentile exact 75 == q3
        /\ (forall v, In v (fst (filtered_values true name exact))
                      <-> In v exact
                          /\ (q1 - 1.5 * (q3 - q1) <= v)%Q
                          /\ (v <= q3 + 1.5 * (q3 - q1))%Q))
  /\ (let example := filtered_values true name [10; 12; 11; 13; 100]%float in
      percentile [10; 12; 11; 13; 100]%float 25 = 11%float
      /\ percentile [10; 12; 11; 13; 100]%float 75 = 13%float
      /\ fst example = [10; 12; 11; 13]%float
      /\ snd example = [RemovedOutliers name [100%float]]
      /\ Permutation (fst example) [10; 11; 12; 13]%float
      /\ mean (fst example) = 11.5%float).
Proof.
  intros kept Q1 Q3 IQR Tmin Tmax.
  split; [|split; [|split; [|split; [|split; [|split; [|split; [|split]]]]]]].
  - apply filtered_values_off.
  - intros -> Hn. unfold kept. rewrite filtered_values_on by exact Hn.
    split; [reflexivity|]. intros v. rewrite filter_outliers_iff.
    unfold within_bounds. fold Q1 Q3 IQR Tmin Tmax. now rewrite andb_true_iff.
  - intros Hnan. split; [apply sort_perm|]. split.
    + intros Hord. now apply sort_ordered.
    + split; now apply percentile_interpolate.
  - intros Hnan. split; now apply percentile_of_nan.
  - intros s table Htable.
    destruct (main_rows s table Htable) as (sheet & control & Hs & Hc & _ & _ & ->).
    now exists sheet, control.
  - exact binary64_ordered.
  - exact Q_ordered.
  - intros exact Hn sorted q1 q3. split; [apply sort_sorted|].
    split; [apply percentile_spec_percentile|].
    split; [apply percentile_spec_percentile|].
    intros v. now apply exact_interval_kept.
  - cbv zeta. split; [vm_compute; reflexivity|]. split; [vm_compute; reflexivity|].
    split; [vm_compute; reflexivity|]. split; [vm_compute; reflexivity|].
    split; [|vm_compute; reflexivity].
    vm_compute. apply perm_skip, perm_swap.
Qed.

Lemma outliers_removed_by_computed_bounds_witness :
  let Q1 := percentile boundary_values 25 in
  let Q3 := percentile boundary_values 75 in
  let IQR := (Q3 - Q1)%num in
  let Tmin := (Q1 - of_Z 3 / of_Z 2 * IQR)%num in
  let Tmax := (Q3 + of_Z 3 / of_Z 2 * IQR)%num in
  fst (filtered_values true "s1" boundary_values)
  = List.filter (fun v => ((Tmin <=? v) && (v <=? Tmax))%num) boundary_values.
Proof.
  refine (proj1 (proj1 (proj2
    (outliers_removed_by_computed_bounds true "s1" boundary_values)) _ _)).
  - reflexivity.
  - vm_compute. lia.
Defined.

(** C4 as stated fails on the numbers of the code.  On the worksheet with
    570 nm readings 0.44, 0.47, 0.50, 0.65 over 0.1 the fourth adjusted value
    lies inside the closed interval [Q1 - 1.5 IQR, Q3 + 1.5 IQR] of the four
    values, and the code removes it: the bounds it compares with are rounded.
    Against the third replicate as control the run reports 93.0 where the
    four values give 103.5.  The same happens where the quartiles are data
    values and so free of rounding: on three values -8444249301319685, then
    -5066549580791810 and 2.5, the upper bound is exactly 2.5 and is computed
    as 2, and 2.5 is removed. *)
Lemma value_inside_interval_removed :
  (let exact := map Q_of_float boundary_values in
   let q1 := spec_percentile (sort exact) 25 in
   let q3 := spec_percentile (sort exact) 75 in
   let v := nth 3 boundary_values nan in
   length boundary_values = 4
   /\ (q1 - 1.5 * (q3 - q1) <= Q_of_float v)%Q
   /\ (Q_of_float v <= q3 + 1.5 * (q3 - q1))%Q
   /\ fst (filtered_values true "s1" boundary_values) = firstn 3 boundary_values
   /\ snd (filtered_values true "s1" boundary_values) = [RemovedOutliers "s1" [v]]
   /\ fst (main boundary_session)
      = Some [[Text "Sample"; Text "Cell Viability %"];
              [Text "control"; Value 100%float];
              [Text "s1"; Value 93%float]]
   /\ reported_percentage true (map Q_of_float [nth 2 boundary_values nan])
        ("s1"%string, exact)
      == 103.5)
  /\ (let Q1 := percentile cancelling_values 25 in
      let Q3 := percentile cancelling_values 75 in
      Q1 = (-8444249301319685)%float
      /\ Q3 = (-5066549580791810)%float
      /\ (Q_of_float Q3 + 1.5 * (Q_of_float Q3 - Q_of_float Q1) == Q_of_float 2.5%float)%Q
      /\ (Q_of_float Q1 - 1.5 * (Q_of_float Q3 - Q_of_float Q1)
          <= Q_of_float 2.5%float)%Q
      /\ (Q3 + of_Z 3 / of_Z 2 * (Q3 - Q1))%num = 2%float
      /\ nth 4 cancelling_values nan = 2.5%float
      /\ fst (filtered_values true "s1" cancelling_values)
         = firstn 4 cancelling_values).
Proof.
  split.
  - cbv zeta. split; [vm_compute; reflexivity|].
    split; [vm_compute; discriminate|]. split; [vm_compute; discriminate|].
    split; [vm_compute; reflexivity|]. split; [vm_compute; reflexivity|].
    split; vm_compute; reflexivity.
  - cbv zeta. split; [vm_compute; reflexivity|]. split; [vm_compute; reflexivity|].
    split; [vm_compute; reflexivity|]. split; [vm_compute; discriminate|].
    split; [vm_compute; reflexivity|]. split; vm_compute; reflexivity.
Qed.

(** C1, as the code has it.  Whenever the run produces a table, every
    collected sample has at least one value, the control has one, and the
    row of the sample holds the percentage the code computes for it: the
    mean of the values kept by the optional filter is divided by the mean of
    the control's values, the quotient is multiplied by 100, and the product
    is rounded to one decimal place as numpy does, that is multiplied by 10,
    rounded to the nearest integer with ties to even, and divided by 10, each
    step on the carrier.  In exact arithmetic, and for a control mean other
    than zero, this is 100 * mean / mean rounded to tenths, a tie going to
    the even digit.  In binary64: control [100, 110, 105] and sample [90, 95]
    give 88.1; ties go to the even digit (6.25 to 6.2, 18.75 to 18.8); the
    mean of eight values 0.45 is 0.45. *)
Theorem viability_is_rounded_quotient {T : Type} {num : Number T}
    (s : session T) (table : list (list (cell T))) :
  fst (main s) = Some table ->
  (exists sheet control_values,
      workbook s !! sheet_name s = Some sheet
      /\ fst (read_selection sheet (positive_control_selection s))
         = Some control_values
      /\ control_values <> []
      /\ Forall (fun sample => snd sample <> [])
           (fst (collect_samples sheet (samples s)))
      /\ table
         = [Text "Sample"; Text "Cell Viability %"]
           :: [Text (positive_control_name s); Value (of_Z 100)]
           :: map (fun sample =>
                     [Text (fst sample);
                      Value (reported_percentage (remove_outliers s)
                               control_values sample)])
                (fst (collect_samples sheet (samples s))))
  /\ (forall flag (control_values : list T) (sample : string * list T),
        let averaged := fst (filtered_values flag (fst sample) (snd sample)) in
        reported_percentage flag control_values sample
        = (rint (mean averaged / mean control_values * of_Z 100 * of_Z 10)
           / of_Z 10)%num)
  /\ (forall flag (control_values : list Q) (sample : string * list Q),
        let averaged := fst (filtered_values flag (fst sample) (snd sample)) in
        ~ spec_mean control_values == 0 ->
        rounded_to_tenths
          (100 * spec_mean averaged / spec_mean control_values)%Q
          (reported_percentage flag control_values sample))
  /\ reported_percentage false [100; 110; 105]%float ("s1"%string, [90; 95]%float)
     = 88.1%float
  /\ reported_percentage false [100; 110; 105]%Q ("s1"%string, [90; 95]%Q) == 88.1
  /\ reported_percentage false [16]%float ("s1"%string, [1]%float) = 6.2%float
  /\ reported_percentage false [16]%float ("s1"%string, [3]%float) = 18.8%float
  /\ mean (repeat 0.45%float 8) = 0.45%float.
Proof.
  intros Htable.
  split; [|split; [|split; [|split; [|split; [|split; [|split]]]]]].
  - now apply main_rows.
  - reflexivity.
  - intros flag control_values sample averaged. apply reported_percentage_exact.
  - vm_compute. reflexivity.
  - vm_compute. reflexivity.
  - vm_compute. reflexivity.
  - vm_compute. reflexivity.
  - vm_compute. reflexivity.
Qed.

Lemma viability_is_rounded_quotient_witness :
  exists sheet control_values,
    workbook tie_session !! sheet_name tie_session = Some sheet
    /\ fst (read_selection sheet (positive_control_selection tie_session))
       = Some control_values
    /\ control_values <> []
    /\ Forall (fun sample => snd sample <> [])
         (fst (collect_samples sheet (samples tie_session)))
    /\ [[Text "Sample"; Text "Cell Viability %"];
        [Text "control"; Value 100%float];
        [Text "s1"; Value 28.7%float]]
       = [Text "Sample"; Text "Cell Viability %"]
         :: [Text (positive_control_name tie_session); Value (of_Z 100)]
         :: map (fun sample =>
                   [Text (fst sample);
                    Value (reported_percentage (remove_outliers tie_session)
                             control_values sample)])
              (fst (collect_samples sheet (samples tie_session))).
Proof.
  refine (proj1 (viability_is_rounded_quotient tie_session _ _)).
  vm_compute. reflexivity.
Defined.

(** C1 as stated fails on the numbers of the code.  With a control reading
    0.625 over 0 (adjusted 73260) and a sample reading 0.265625 over 0.125
    (adjusted 21062.25) the ratio is 28.75 %, exactly.  The formula of the
    claim, 100 * mean / mean, gives 28.75 in binary64 too and rounds to 28.8,
    as every rounding of the tie to the even digit does; the code divides
    first, gets a quotient just below 0.2875 and reports 28.7. *)
Lemma tie_reported_below :
  let control := [73260]%float in
  let sample := [21062.25]%float in
  fst (read_selection tie_sheet "$A$1:$A$2") = Some control
  /\ fst (read_selection tie_sheet "$A$3:$A$4") = Some sample
  /\ fst (main tie_session)
     = Some [[Text "Sample"; Text "Cell Viability %"];
             [Text "control"; Value 100%float];
             [Text "s1"; Value 28.7%float]]
  /\ round (of_Z 100 * mean sample / mean control)%num 1 = 28.8%float
  /\ PrimFloat.eqb 28.7 28.8 = false
  /\ (100 * spec_mean (map Q_of_float sample) / spec_mean (map Q_of_float control)
      == 28.75)%Q
  /\ rounded_to_tenths 28.75 28.8
  /\ ~ rounded_to_tenths 28.75 28.7.
Proof.
  cbv zeta. split; [vm_compute; reflexivity|]. split; [vm_compute; reflexivity|].
  split; [vm_compute; reflexivity|]. split; [vm_compute; reflexivity|].
  split; [vm_compute; reflexivity|]. split; [vm_compute; reflexivity|].
  split; [exact tie_rounds_up | exact tie_not_rounded_down].
Qed.

(** C9 on the code.  After outlier filtering there is no check for an empty
    list.  On a worksheet whose readings overflow binary64 the first replicate
    of "s1" is NaN; the quartiles are then NaN, the filter keeps no value, and
    the run still gives "s1" a row, with NaN for its percentage, and prints no
    "No valid data" line for it. *)
Theorem emptied_sample_still_reported :
  let values := fst (process_replicates overflow_sheet
                       [("A1", "A2"); ("A3", "A4"); ("A5", "A6")]%string) in
  length values = 3
  /\ fst (filtered_values true "s1" values) = []
  /\ (exists v,
        fst (main overflow_session)
        = Some [[Text "Sample"; Text "Cell Viability %"];
                [Text "control"; Value 100%float];
                [Text "s1"; Value v]]
        /\ is_nan v = true)
  /\ ~ In (NoSampleData "s1") (snd (main overflow_session)).
Proof.
  cbv zeta. split; [vm_compute; reflexivity|]. split; [vm_compute; reflexivity|].
  split.
  - eexists. split; vm_compute; reflexivity.
  - vm_compute. intros [H | [H | []]]; discriminate.
Qed.

(** * Further properties *)

(** ** Range parser: refusals, empty ranges, columns, distinct cells *)

Section RangeParserMore.

Local Open Scope string_scope.

Lemma split_length sep s : length (split sep s) = S (count_char sep s).
Proof.
  unfold count_char. induction s as [|c s IH]; [reflexivity|].
  cbn [split list_ascii_of_string List.filter]. rewrite (Ascii.eqb_sym sep c).
  destruct (Ascii.eqb c sep).
  - cbn [length]. now rewrite IH.
  - destruct (split sep s); cbn [length] in *; [discriminate | exact IH].
Qed.

Lemma get_replicate_cells_corner start_col end_col start_row end_row :
  is_column start_col = true -> is_column end_col = true ->
  (0 < start_row)%Z -> (0 < end_row)%Z ->
  get_replicate_cells_from_range (corner_range start_col start_row end_col end_row)
  = Some (replicate_pairs start_col start_row
            (Z.to_nat ((end_row - start_row + 2) / 2))).
Proof.
  intros Hc1 Hc2 Hs He. unfold get_replicate_cells_from_range, corner_range.
  change (":" ++ address end_col end_row) with (String ":" (address end_col end_row)).
  rewrite (split_one _ _ _ (address_no_colon _ _ Hc1 Hs) (address_no_colon _ _ Hc2 He)).
  rewrite !coordinate_from_address by assumption.
  rewrite py_range_step2. unfold replicate_pairs. rewrite map_map.
  replace (end_row + 1 - start_row + 1)%Z with (end_row - start_row + 2)%Z by lia.
  reflexivity.
Qed.

Lemma address_inj col row1 row2 :
  (0 < row1)%Z -> (0 < row2)%Z -> address col row1 = address col row2 -> row1 = row2.
Proof.
  intros H1 H2 Heq. unfold address in Heq. apply String.app_inj in Heq.
  destruct row1 as [|p1|p1], row2 as [|p2|p2]; try lia.
  destruct (str_of_int_pos p1) as (c1 & d1 & E1 & _ & _ & R1).
  destruct (str_of_int_pos p2) as (c2 & d2 & E2 & _ & _ & R2).
  rewrite <- E1 in R1. rewrite <- E2 in R2. rewrite Heq in R1. congruence.
Qed.

Lemma cells_of_replicate_pairs col start_row count :
  cells_of (replicate_pairs col start_row count)
  = map (fun i => address col (start_row + Z.of_nat i)) (seq 0 (2 * count)).
Proof.
  unfold replicate_pairs, cells_of. induction count as [|k IH]; [reflexivity|].
  rewrite seq_S, map_app, flat_map_app, IH. cbn [map flat_map fst snd app].
  replace (2 * S k)%nat with (S (S (2 * k))) by lia.
  rewrite !seq_S, !map_app. cbn [map Nat.add]. rewrite <- app_assoc. cbn [app].
  replace (start_row + Z.of_nat (2 * k))%Z with (start_row + 2 * Z.of_nat k)%Z by lia.
  replace (start_row + Z.of_nat (S (2 * k)))%Z
    with (start_row + 2 * Z.of_nat k + 1)%Z by lia.
  reflexivity.
Qed.

End RangeParserMore.

(** X1. A selection that does not hold exactly one colon (a single cell, a
    selection of several areas) is refused: splitting it does not give the
    two corners the parser unpacks. *)
Theorem colon_count_refused (cell_range : string) :
  count_char ":" cell_range <> 1 ->
  get_replicate_cells_from_range cell_range = None.
Proof.
  intros Hcount. unfold get_replicate_cells_from_range.
  pose proof (split_length ":" cell_range) as Hlen.
  destruct (split ":" cell_range) as [|a [|b [|c l]]]; cbn [length] in Hlen;
    try reflexivity.
  lia.
Qed.

Lemma colon_count_refused_witness :
  get_replicate_cells_from_range "C3" = None
  /\ get_replicate_cells_from_range "A1:A2,C1:C2" = None.
Proof.
  split; apply colon_count_refused; vm_compute; lia.
Defined.

(** X2. A range whose last row lies above its first gives no pairs at all
    (and no error): the row loop has nothing to run over. *)
Theorem reversed_range_empty (col : string) (start_row end_row : Z) :
  is_column col = true -> (0 < end_row)%Z -> (end_row < start_row)%Z ->
  get_replicate_cells_from_range (column_range col start_row end_row) = Some [].
Proof.
  intros Hcol He Hlt.
  rewrite get_replicate_cells_column by (assumption || lia).
  assert (Hdiv : ((end_row - start_row + 2) / 2 < 1)%Z)
    by (apply Z.div_lt_upper_bound; lia).
  replace (Z.to_nat ((end_row - start_row + 2) / 2)) with 0%nat by lia.
  reflexivity.
Qed.

Lemma reversed_range_empty_witness :
  get_replicate_cells_from_range (column_range "A" 8 1) = Some [].
Proof.
  apply (reversed_range_empty "A" 8 1); [reflexivity | lia | lia].
Defined.

(** X3. Only the column of the first corner is used: a range that ends in
    another column gives the pairs of the first column over the same rows. *)
Theorem end_column_ignored (start_col end_col : string) (start_row end_row : Z) :
  is_column start_col = true -> is_column end_col = true ->
  (0 < start_row)%Z -> (0 < end_row)%Z ->
  get_replicate_cells_from_range (corner_range start_col start_row end_col end_row)
  = get_replicate_cells_from_range (column_range start_col start_row end_row).
Proof.
  intros Hc1 Hc2 Hs He.
  rewrite get_replicate_cells_corner, get_replicate_cells_column by assumption.
  reflexivity.
Qed.

Lemma end_column_ignored_witness :
  get_replicate_cells_from_range (corner_range "A" 1 "C" 4)
  = get_replicate_cells_from_range (column_range "A" 1 4).
Proof.
  apply (end_column_ignored "A" "C" 1 4); [reflexivity | reflexivity | lia | lia].
Defined.

(** X4. The pairs of a column range name pairwise distinct cells, two per
    pair and half as many pairs as rows, rounded up: no reading is used in
    two replicates. *)
Theorem range_cells_distinct (col : string) (start_row end_row : Z)
    (pairs : list (string * string)) :
  is_column col = true -> (0 < start_row)%Z -> (0 < end_row)%Z ->
  get_replicate_cells_from_range (column_range col start_row end_row) = Some pairs ->
  NoDup (cells_of pairs)
  /\ length (cells_of pairs) = (2 * length pairs)%nat
  /\ Z.of_nat (length pairs) = Z.max 0 ((end_row - start_row + 2) / 2).
Proof.
  intros Hcol Hs He Hget.
  rewrite get_replicate_cells_column in Hget by assumption.
  injection Hget as <-. rewrite cells_of_replicate_pairs.
  split; [|split].
  - apply NoDup_fmap_2_strong; [|apply NoDup_seq].
    intros i j _ _ Heq. apply address_inj in Heq; lia.
  - rewrite length_map, length_seq. unfold replicate_pairs.
    now rewrite length_map, length_seq.
  - unfold replicate_pairs. rewrite length_map, length_seq. lia.
Qed.

Lemma range_cells_distinct_witness :
  NoDup (cells_of [("A1", "A2"); ("A3", "A4"); ("A5", "A6"); ("A7", "A8")]%string).
Proof.
  apply (range_cells_distinct "A" 1 7); [reflexivity | lia | lia | reflexivity].
Defined.

(** ** Selections as Excel reports them *)

Section Selections.

Local Open Scope string_scope.

Lemma remove_char_app c a b :
  remove_char c (a ++ b) = remove_char c a ++ remove_char c b.
Proof.
  induction a as [|x a IH]; [reflexivity|]. simpl.
  destruct (Ascii.eqb x c); simpl; now rewrite IH.
Qed.

Lemma remove_char_none c s :
  string_forallb (fun x => negb (Ascii.eqb x c)) s = true -> remove_char c s = s.
Proof.
  induction s as [|x s IH]; [reflexivity|]. cbn [string_forallb remove_char].
  rewrite andb_true_iff, negb_true_iff. intros [Hx Hs]. now rewrite Hx, (IH Hs).
Qed.


Lemma address_no_dollar col row :
  is_column col = true -> (0 < row)%Z ->
  string_forallb (fun c => negb (Ascii.eqb c "$")) (address col row) = true.
Proof.
  intros Hcol Hrow. apply is_column_spec in Hcol as [_ Hletters].
  destruct row as [|p|p]; try lia.
  destruct (str_of_int_pos p) as (c & ds & Hstr & Hc & Hds & _).
  unfold address. rewrite Hstr, string_forallb_app. apply andb_true_iff. split.
  - eapply string_forallb_impl; [|exact Hletters].
    intros x Hx. now rewrite (letter_not_dollar _ Hx).
  - cbn [string_forallb]. rewrite (digit_not_dollar _ Hc). cbn [negb andb].
    eapply string_forallb_impl; [|exact Hds].
    intros x Hx. now rewrite (digit_not_dollar _ Hx).
Qed.



Lemma remove_dollars_plain col start_row end_row :
  is_column col = true -> (0 < start_row)%Z -> (0 < end_row)%Z ->
  remove_char "$" (column_range col start_row end_row)
  = column_range col start_row end_row.
Proof.
  intros Hcol Hs He. unfold column_range.
  rewrite !remove_char_app.
  rewrite !(remove_char_none "$" (address col _)) by now apply address_no_dollar.
  reflexivity.
Qed.

End Selections.



(** ** Absorbance calculator: what is printed, composition, locality *)

Section CalculatorMore.

Context {T : Type} {num : Number T}.

Lemma process_replicates_warnings (sheet : gmap string T) cells :
  snd (process_replicates sheet cells)
  = map (fun pair => MissingData (fst pair) (snd pair))
        (List.filter (lacks_reading sheet) cells).
Proof.
  induction cells as [|[c570 c600] rest IH]; [reflexivity|].
  cbn [process_replicates List.filter]. unfold lacks_reading at 1, adjusted.
  cbn [fst snd].
  destruct (sheet !! c570) as [v570|]; [destruct (sheet !! c600) as [v600|]|];
    rewrite Out_bind_snd; cbn [print mret Out_ret snd map fst app]; rewrite IH;
    [apply app_nil_r | reflexivity | reflexivity].
Qed.

Lemma filter_omap_length {A B} (f : A -> option B) (l : list A) :
  (length (omap f l)
   + length (List.filter (fun x => match f x with Some _ => false | None => true end) l)
   = length l)%nat.
Proof.
  induction l as [|x l IH]; [reflexivity|]. cbn [omap list_omap List.filter].
  destruct (f x); cbn [length]; lia.
Qed.

End CalculatorMore.

(** X6. Every pair is accounted for once: it either contributes one value
    or one "Missing data" warning naming its two cells; the warnings come in
    the order of the pairs. *)
Theorem every_pair_accounted {T : Type} {num : Number T}
    (sheet : gmap string T) (replicate_cells : list (string * string)) :
  snd (process_replicates sheet replicate_cells)
  = map (fun pair => MissingData (fst pair) (snd pair))
        (List.filter (lacks_reading sheet) replicate_cells)
  /\ (length (fst (process_replicates sheet replicate_cells))
      + length (snd (process_replicates sheet replicate_cells))
      = length replicate_cells)%nat.
Proof.
  split; [apply process_replicates_warnings|].
  rewrite process_replicates_warnings, process_replicates_values, length_map.
  apply filter_omap_length.
Qed.

(** X7. Processing two lists of pairs one after the other is processing
    their concatenation: the values and the warnings are appended. *)
Theorem process_replicates_app {T : Type} {num : Number T}
    (sheet : gmap string T) (cells1 cells2 : list (string * string)) :
  process_replicates sheet (cells1 ++ cells2)
  = (fst (process_replicates sheet cells1) ++ fst (process_replicates sheet cells2),
     snd (process_replicates sheet cells1) ++ snd (process_replicates sheet cells2)).
Proof.
  apply injective_projections; cbn [fst snd].
  - rewrite !process_replicates_values. apply omap_app.
  - rewrite !process_replicates_warnings, List.filter_app. apply map_app.
Qed.

(** X8. Only the cells named by the pairs are read: two worksheets that
    agree on them give the same values and the same warnings. *)
Theorem process_replicates_local {T : Type} {num : Number T}
    (sheet1 sheet2 : gmap string T) (replicate_cells : list (string * string)) :
  (forall cell, In cell (cells_of replicate_cells) -> sheet1 !! cell = sheet2 !! cell) ->
  process_replicates sheet1 replicate_cells = process_replicates sheet2 replicate_cells.
Proof.
  induction replicate_cells as [|[c570 c600] rest IH]; intros Hagree; [reflexivity|].
  cbn [process_replicates].
  rewrite <- (Hagree c570), <- (Hagree c600), IH; try reflexivity.
  - intros cell Hin. apply Hagree. cbn. auto.
  - cbn. auto.
  - cbn. auto.
Qed.

Lemma process_replicates_local_witness :
  process_replicates (<["Z9"%string := 7%Q]> example_sheet)
    [("A1", "A2"); ("A3", "A4")]%string
  = process_replicates example_sheet [("A1", "A2"); ("A3", "A4")]%string.
Proof.
  apply process_replicates_local.
  intros cell Hin. cbn in Hin.
  destruct Hin as [<- | [<- | [<- | [<- | []]]]]; vm_compute; reflexivity.
Defined.

(** ** The run: which samples it keeps, the shape of the table *)

Section RunMore.

Context {T : Type} {num : Number T}.

Lemma reading_not_results (m : message T) : reading_message m -> ~ is_results m.
Proof. destruct m; cbn; tauto. Qed.

Lemma read_selection_no_results (sheet : gmap string T) address :
  Forall (fun m => ~ is_results m) (snd (read_selection sheet address)).
Proof.
  eapply List.Forall_impl; [|apply read_selection_messages].
  apply reading_not_results.
Qed.

Lemma collect_samples_no_results (sheet : gmap string T) entries :
  Forall (fun m => ~ is_results m) (snd (collect_samples sheet entries)).
Proof.
  induction entries as [|[name address] rest IH]; [constructor|].
  cbn [collect_samples]. rewrite Out_bind_snd. apply Forall_app. split.
  - apply read_selection_no_results.
  - destruct (fst (read_selection sheet address)) as [[|v vs]|]; [| |exact IH].
    + rewrite Out_bind_snd. apply Forall_app. split; [|exact IH].
      repeat constructor. cbn. tauto.
    + rewrite Out_bind_snd. apply Forall_app. split; [exact IH | constructor].
Qed.

Lemma filtered_values_no_results flag name (values : list T) :
  Forall (fun m => ~ is_results m) (snd (filtered_values flag name values)).
Proof.
  unfold filtered_values.
  destruct (flag && (2 <? length values)%nat); [|constructor].
  rewrite Out_bind_snd.
  destruct (length (filter_outliers values) =? length values)%nat;
    repeat constructor. cbn. tauto.
Qed.

Lemma sample_rows_no_results flag (average : T) samples_data :
  Forall (fun m => ~ is_results m) (snd (sample_rows flag average samples_data)).
Proof.
  induction samples_data as [|[name values] rest IH]; [constructor|].
  cbn [sample_rows]. rewrite !Out_bind_snd. apply Forall_app. split.
  - unfold sample_row. rewrite Out_bind_snd. apply Forall_app. split;
      [apply filtered_values_no_results | constructor].
  - apply Forall_app. split; [exact IH | constructor].
Qed.

Lemma collect_samples_fst_app (sheet : gmap string T) entries1 entries2 :
  fst (collect_samples sheet (entries1 ++ entries2))
  = fst (collect_samples sheet entries1) ++ fst (collect_samples sheet entries2).
Proof.
  induction entries1 as [|[name address] rest IH]; [reflexivity|].
  cbn [app collect_samples]. rewrite !Out_bind_fst.
  destruct (fst (read_selection sheet address)) as [[|v vs]|]; [| |exact IH].
  - rewrite !Out_bind_fst. exact IH.
  - rewrite !Out_bind_fst. cbn [mret Out_ret fst]. now rewrite IH.
Qed.

Lemma collect_samples_snd_app (sheet : gmap string T) entries1 entries2 :
  snd (collect_samples sheet (entries1 ++ entries2))
  = snd (collect_samples sheet entries1) ++ snd (collect_samples sheet entries2).
Proof.
  induction entries1 as [|[name address] rest IH]; [reflexivity|].
  cbn [app collect_samples]. rewrite !Out_bind_snd, <- app_assoc. f_equal.
  destruct (fst (read_selection sheet address)) as [[|v vs]|]; [| |exact IH].
  - rewrite !Out_bind_snd, <- app_assoc. now rewrite IH.
  - rewrite !Out_bind_snd. cbn [mret Out_ret snd]. now rewrite !app_nil_r.
Qed.

Lemma read_selection_refused (sheet : gmap string T) address :
  fst (read_selection sheet address) = None ->
  snd (read_selection sheet address) = [SelectionError].
Proof.
  unfold read_selection. destruct (get_replicate_cells_from_range _); [|reflexivity].
  rewrite Out_bind_fst. discriminate.
Qed.

Lemma collect_samples_length (sheet : gmap string T) entries :
  length (fst (collect_samples sheet entries)) <= length entries.
Proof.
  induction entries as [|[name address] rest IH]; [reflexivity|].
  cbn [collect_samples]. rewrite Out_bind_fst.
  destruct (fst (read_selection sheet address)) as [[|v vs]|];
    rewrite ?Out_bind_fst; cbn [mret Out_ret fst length]; lia.
Qed.

Lemma sample_rows_fst_app flag (average : T) samples1 samples2 :
  fst (sample_rows flag average (samples1 ++ samples2))
  = fst (sample_rows flag average samples1) ++ fst (sample_rows flag average samples2).
Proof.
  induction samples1 as [|sample rest IH]; [reflexivity|].
  cbn [app sample_rows]. rewrite !Out_bind_fst. cbn [mret Out_ret fst].
  now rewrite IH.
Qed.

Lemma sample_rows_length flag (average : T) samples_data :
  length (fst (sample_rows flag average samples_data)) = length samples_data.
Proof.
  rewrite <- (length_map row_label), sample_rows_labels. apply length_map.
Qed.

Lemma sample_rows_shape flag (average : T) samples_data :
  Forall (fun row => length row = 2) (fst (sample_rows flag average samples_data)).
Proof.
  induction samples_data as [|[name values] rest IH]; [constructor|].
  cbn [sample_rows]. rewrite !Out_bind_fst. cbn [mret Out_ret fst].
  constructor; [|exact IH].
  unfold sample_row. now rewrite Out_bind_fst.
Qed.

End RunMore.

(** X9. The results table is printed once, after every warning.  A run that
    produces a table has printed, up to the display of the table, the
    warnings of the selections and of the outlier filter and then the table,
    which is the table it produced; a run that produces none has printed no
    table. *)
Theorem table_printed_last {T : Type} {num : Number T} (s : session T) :
  match fst (main s) with
  | Some table =>
      exists warnings,
        snd (main s) = warnings ++ [Results table]
        /\ Forall (fun m => ~ is_results m) warnings
  | None => Forall (fun m => ~ is_results m) (snd (main s))
  end.
Proof.
  destruct (fst (main s)) as [table|] eqn:Hrun.
  - destruct (main_printed s table Hrun) as (sheet & control & _ & _ & ->).
    eexists. rewrite !app_assoc. split; [reflexivity|].
    rewrite !Forall_app. repeat split.
    + apply read_selection_no_results.
    + apply collect_samples_no_results.
    + apply sample_rows_no_results.
  - revert Hrun. unfold main.
    destruct (workbook s !! sheet_name s) as [sheet|].
    2: { intros _. repeat constructor. cbn. tauto. }
    rewrite Out_bind_fst, Out_bind_snd.
    pose proof (read_selection_no_results sheet (positive_control_selection s))
      as Hread.
    destruct (fst (read_selection sheet (positive_control_selection s)))
      as [[|v vs]|].
    + intros _. apply Forall_app. split; [exact Hread|].
      repeat constructor. cbn. tauto.
    + rewrite !Out_bind_fst. discriminate.
    + intros _. apply Forall_app. split; [exact Hread | constructor].
Qed.

(** X10. A sample whose selection cannot be read, or has no valid replicate,
    is left out and the run goes on: the samples collected are those of the
    other entries, as if the entry had not been made.  The first case is
    reported as "Error getting selected range", the second as "No valid data
    found for ...". *)
Theorem failed_sample_left_out {T : Type} {num : Number T}
    (sheet : gmap string T) (before after : list (string * string))
    (sample_name address : string) :
  fst (read_selection sheet address) = None
  \/ fst (read_selection sheet address) = Some [] ->
  let printed :=
    snd (collect_samples sheet (before ++ (sample_name, address) :: after)) in
  fst (collect_samples sheet (before ++ (sample_name, address) :: after))
  = fst (collect_samples sheet (before ++ after))
  /\ (fst (read_selection sheet address) = None -> In SelectionError printed)
  /\ (fst (read_selection sheet address) = Some [] ->
      In (NoSampleData sample_name) printed).
Proof.
  intros Hfailed printed. split; [|split].
  - rewrite !collect_samples_fst_app. f_equal.
    cbn [collect_samples]. rewrite Out_bind_fst.
    destruct Hfailed as [-> | ->]; [reflexivity | now rewrite Out_bind_fst].
  - intros Hnone. unfold printed. rewrite collect_samples_snd_app.
    apply in_or_app. right. cbn [collect_samples].
    rewrite Out_bind_snd, (read_selection_refused _ _ Hnone). now left.
  - intros Hempty. unfold printed. rewrite collect_samples_snd_app.
    apply in_or_app. right. cbn [collect_samples].
    rewrite Out_bind_snd, Hempty, Out_bind_snd.
    apply in_or_app. right. now left.
Qed.

Lemma failed_sample_left_out_witness :
  fst (collect_samples example_sheet
         ([("s1", "$A$3:$A$4")%string] ++ ("s2", "$C$3:$C$6")%string :: []))
  = fst (collect_samples example_sheet ([("s1", "$A$3:$A$4")%string] ++ [])).
Proof.
  apply (failed_sample_left_out example_sheet [("s1", "$A$3:$A$4")%string] []
           "s2" "$C$3:$C$6").
  right. vm_compute. reflexivity.
Defined.

(** X11. Entering more samples changes nothing above them: the table of the
    longer run is the table of the shorter one followed by at most one row
    per additional entry. *)
Theorem earlier_rows_unchanged {T : Type} {num : Number T} (s : session T)
    (more : list (string * string)) (table : list (list (cell T))) :
  fst (main s) = Some table ->
  exists rows,
    fst (main (with_more_samples s more)) = Some (table ++ rows)
    /\ length rows <= length more.
Proof.
  intros Htable.
  destruct (main_table s table Htable) as (sheet & control & Hsheet & Hread & Hne & ->).
  unfold main, with_more_samples. cbn [workbook sheet_name positive_control_selection
    positive_control_name remove_outliers samples].
  rewrite Hsheet, Out_bind_fst, Hread.
  destruct control as [|v vs]; [congruence|].
  rewrite !Out_bind_fst. cbn [mret Out_ret fst].
  rewrite collect_samples_fst_app, sample_rows_fst_app.
  eexists. split; [reflexivity|].
  rewrite sample_rows_length. apply collect_samples_length.
Qed.

Lemma earlier_rows_unchanged_witness :
  exists rows,
    fst (main (with_more_samples example_session [("s4", "$A$1:$A$4")%string]))
    = Some ([[Text "Sample"; Text "Cell Viability %"];
             [Text "control"; Value 100%Q]; [Text "s1"; Value 72.4%Q]] ++ rows)
    /\ length rows <= 1.
Proof.
  apply (earlier_rows_unchanged example_session [("s4", "$A$1:$A$4")%string]).
  vm_compute. reflexivity.
Defined.

(** X12. The results table is rectangular: every row, the header included,
    has two cells, and there are the header, the control and at most one row
    per sample entered.  (The export fills a grid of as many columns as the
    header has.) *)
Theorem table_is_rectangular {T : Type} {num : Number T} (s : session T)
    (table : list (list (cell T))) :
  fst (main s) = Some table ->
  Forall (fun row => length row = 2) table
  /\ 2 <= length table <= 2 + length (samples s).
Proof.
  intros Htable.
  destruct (main_table s table Htable) as (sheet & control & _ & _ & _ & ->).
  split.
  - repeat constructor. apply sample_rows_shape.
  - cbn [length]. rewrite sample_rows_length.
    pose proof (collect_samples_length sheet (samples s)). lia.
Qed.

Lemma table_is_rectangular_witness :
  Forall (fun row : list (cell Q) => length row = 2)
    [[Text "Sample"; Text "Cell Viability %"];
     [Text "control"; Value 100%Q]; [Text "s1"; Value 72.4%Q]]
  /\ 2 <= 3 <= 2 + length (samples example_session).
Proof.
  apply (table_is_rectangular example_session). vm_compute. reflexivity.
Defined.

(** ** Outlier removal: what is kept and what is reported *)

Section OutliersMore.

Lemma List_filter_sublist {A} (f : A -> bool) (l : list A) :
  sublist (List.filter f l) l.
Proof.
  induction l as [|x l IH]; [constructor|]. cbn [List.filter].
  destruct (f x); [now apply sublist_skip | now apply sublist_cons].
Qed.

Lemma List_filter_all {A} (f : A -> bool) (l : list A) :
  length (List.filter f l) = length l -> List.filter f l = l.
Proof.
  induction l as [|x l IH]; [reflexivity|]. cbn [List.filter].
  pose proof (filter_length_le f l) as Hle.
  destruct (f x); cbn [length]; intros Hlen; [f_equal; apply IH|]; lia.
Qed.

End OutliersMore.

(** X13. The values a sample is averaged over are some of its own, in their
    order; a "Removed outliers" line is printed exactly when at least one
    value was dropped, and nothing else is printed. *)
Theorem outliers_reported_iff_dropped {T : Type} {num : Number T}
    (flag : bool) (sample_name : string) (replicate_values : list T) :
  let kept := fst (filtered_values flag sample_name replicate_values) in
  let printed := snd (filtered_values flag sample_name replicate_values) in
  sublist kept replicate_values
  /\ (kept = replicate_values -> printed = [])
  /\ (kept <> replicate_values ->
      printed = [RemovedOutliers sample_name (set_difference replicate_values kept)]).
Proof.
  unfold filtered_values.
  destruct (flag && (2 <? length replicate_values)%nat).
  - rewrite Out_bind_fst, Out_bind_snd. cbn [mret Out_ret fst snd].
    rewrite app_nil_r. unfold filter_outliers.
    set (keep := fun v : T => _).
    split; [apply List_filter_sublist|].
    destruct (Nat.eqb_spec (length (List.filter keep replicate_values))
                (length replicate_values)) as [Hlen | Hlen].
    + split; [reflexivity|]. intros Hne. now apply List_filter_all in Hlen.
    + split; [|reflexivity]. intros Heq. now rewrite Heq in Hlen.
  - cbn [mret Out_ret fst snd]. split; [reflexivity|]. split; [reflexivity | congruence].
Qed.

(** X14. For replicate values without a NaN, on a carrier with the laws of
    order (binary64 is one), the set printed after "Removed outliers" holds
    exactly the values that fail a comparison with the bounds as computed:
    every value printed fails one, every value that fails one is printed (as
    a number equal to it), and no number is printed twice. *)
Theorem reported_outliers_fail_the_bounds {T : Type} {num : Number T}
    (replicate_values : list T) :
  ordered_carrier T -> existsb is_nan replicate_values = false ->
  let Q1 := percentile replicate_values 25 in
  let Q3 := percentile replicate_values 75 in
  let IQR := (Q3 - Q1)%num in
  let Tmin := (Q1 - of_Z 3 / of_Z 2 * IQR)%num in
  let Tmax := (Q3 + of_Z 3 / of_Z 2 * IQR)%num in
  let reported := set_difference replicate_values (filter_outliers replicate_values) in
  (forall v, In v reported ->
             In v replicate_values /\ ((Tmin <=? v) && (v <=? Tmax))%num = false)
  /\ (forall v, In v replicate_values -> ((Tmin <=? v) && (v <=? Tmax))%num = false ->
                exists w, In w reported /\ (v ==? w)%num = true)
  /\ ForallOrdPairs (fun a b => (a ==? b)%num = false) reported.
Proof.
  intros Hord Hnan Q1 Q3 IQR Tmin Tmax reported.
  apply existsb_is_nan_false in Hnan. rewrite List.Forall_forall in Hnan.
  change (forall v : T, In v replicate_values -> is_nan v = false) in Hnan.
  assert (Hkept : forall v, In v replicate_values ->
            (existsb (eqb v) (filter_outliers replicate_values) = false
             <-> within_bounds Q1 Q3 v = false)).
  { intros v Hin. split.
    - intros Hnone. destruct (within_bounds Q1 Q3 v) eqn:E; [|reflexivity].
      assert (Hex : existsb (eqb v) (filter_outliers replicate_values) = true).
      { apply existsb_exists. exists v. split.
        - apply filter_outliers_iff. now split.
        - apply eqb_refl_not_nan. now apply Hnan. }
      congruence.
    - intros Hout.
      destruct (existsb (eqb v) (filter_outliers replicate_values)) eqn:E;
        [|reflexivity].
      apply existsb_exists in E as (w & Hw & Heq).
      apply filter_outliers_iff in Hw as [_ Hw]. fold Q1 Q3 in Hw.
      rewrite (within_bounds_eqb Q1 Q3 v w Hord Heq) in Hout. congruence. }
  split; [|split].
  - intros v Hv. apply set_difference_sound in Hv as [Hin Hnone].
    split; [exact Hin | now apply Hkept].
  - intros v Hin Hout.
    apply set_difference_complete; [exact Hin | now apply Hnan | now apply Hkept].
  - apply set_difference_distinct.
Qed.

Lemma reported_outliers_fail_the_bounds_witness :
  ForallOrdPairs (fun a b => (a ==? b)%num = false)
    (set_difference boundary_values (filter_outliers boundary_values)).
Proof.
  refine (proj2 (proj2
    (reported_outliers_fail_the_bounds boundary_values binary64_ordered _))).
  vm_compute. reflexivity.
Defined.

(** ** The percentage: reference point and order *)

Section PercentageMore.

Local Open Scope Q_scope.

Ltac exact_ops :=
  cbn [add sub mul div leb eqb of_Z rint Q_Number] in *.

Lemma Qrint_monotone (x y : Q) : x <= y -> Qrint x <= Qrint y.
Proof.
  intros Hxy.
  destruct (Qrint_nearest x) as (kx & Hkx & Hnx & _).
  destruct (Qrint_nearest y) as (ky & Hky & Hny & _).
  rewrite Hkx, Hky. rewrite <- Zle_Qle.
  destruct (Z_le_gt_dec kx ky) as [Hle | Hgt]; [exact Hle|].
  apply Qabs_Qle_condition in Hnx, Hny.
  assert (Hstep : inject_Z ky + 1 <= inject_Z kx).
  { change 1 with (inject_Z 1). rewrite <- inject_Z_plus, <- Zle_Qle. lia. }
  assert (Heq : x == y) by (apply Qle_antisym; lra).
  pose proof (Qrint_comp x y Heq) as Hsame. rewrite Hkx, Hky in Hsame.
  injection Hsame as Hsame. lia.
Qed.

Lemma Qrint_integer (k : Z) : Qrint (inject_Z k) = inject_Z k.
Proof.
  unfold Qrint. rewrite Qfloor_Z.
  assert (H : (inject_Z k - inject_Z k ?= 1 # 2) = Lt).
  { apply (proj1 (Qlt_alt _ _)). generalize (inject_Z k). intros q. lra. }
  now rewrite H.
Qed.

Lemma viability_percentage_Q (average control_average : Q) :
  viability_percentage average control_average
  == Qrint (average / control_average * 1000) / 10.
Proof.
  unfold viability_percentage, round. exact_ops.
  change (inject_Z (10 ^ Z.of_nat 1)) with 10. change (inject_Z 100) with 100.
  rewrite (Qrint_comp (average / control_average * 100 * 10)
             (average / control_average * 1000)) by ring.
  reflexivity.
Qed.

End PercentageMore.

(** X15. A sample whose average equals the control's is reported at exactly
    100.0 (exact values, control average not zero). *)
Theorem same_average_is_100 (average control_average : Q) :
  ~ control_average == 0 -> average == control_average ->
  viability_percentage average control_average == 100.
Proof.
  intros Hc Heq. rewrite viability_percentage_Q.
  rewrite (Qrint_comp _ (inject_Z 1000)).
  - rewrite Qrint_integer. reflexivity.
  - rewrite Heq. change (inject_Z 1000) with 1000%Q. now field.
Qed.

Lemma same_average_is_100_witness :
  viability_percentage (mean [90; 95]%Q) (mean [95; 90]%Q) == 100.
Proof.
  apply same_average_is_100; vm_compute; congruence.
Defined.

(** X16. Against a positive control average the percentage follows the
    sample's average: a larger average never gets a smaller percentage
    (exact values; rounding keeps the order). *)
Theorem viability_monotone (average1 average2 control_average : Q) :
  (0 < control_average)%Q -> (average1 <= average2)%Q ->
  (viability_percentage average1 control_average
   <= viability_percentage average2 control_average)%Q.
Proof.
  intros Hc Hle. rewrite !viability_percentage_Q.
  assert (Harg : (average1 / control_average * 1000
                  <= average2 / control_average * 1000)%Q).
  { unfold Qdiv. pose proof (Qinv_lt_0_compat control_average Hc) as Hinv.
    set (ic := (/ control_average)%Q) in *. nra. }
  pose proof (Qrint_monotone _ _ Harg) as Hr.
  unfold Qdiv. apply Qmult_le_compat_r; [exact Hr | discriminate].
Qed.

Lemma viability_monotone_witness :
  (viability_percentage 90 105 <= viability_percentage 95 105)%Q.
Proof.
  apply viability_monotone; [reflexivity | discriminate].
Defined.

(** ** Answers and the export file name *)

Section AnswersMore.

Local Open Scope string_scope.
Local Arguments String.append !s1 s2 : simpl nomatch.

Lemma endswith_refl s : endswith s s = true.
Proof.
  assert (H : endswith s s = String.eqb s s
                             || match s with
                                | String _ s' => endswith s' s
                                | EmptyString => false
                                end) by (destruct s; reflexivity).
  now rewrite H, String.eqb_refl.
Qed.

Lemma endswith_spec s suffix :
  endswith s suffix = true <-> exists stem, s = stem ++ suffix.
Proof.
  split.
  - induction s as [|c s IH]; cbn [endswith]; rewrite orb_true_iff.
    + intros [H | H]; [|discriminate]. apply String.eqb_eq in H. now exists "".
    + intros [H | H].
      * apply String.eqb_eq in H. now exists "".
      * destruct (IH H) as (stem & ->). now exists (String c stem).
  - intros (stem & ->). induction stem as [|c stem IH].
    + apply endswith_refl.
    + change (endswith (String c stem ++ suffix) suffix)
        with (String.eqb (String c (stem ++ suffix)) suffix
              || endswith (stem ++ suffix) suffix).
      rewrite IH. apply orb_true_r.
Qed.

Lemma append_length a b : String.length (a ++ b) = (String.length a + String.length b)%nat.
Proof.
  induction a as [|c a IH]; [reflexivity|].
  change (S (String.length (a ++ b)) = S (String.length a + String.length b)).
  now rewrite IH.
Qed.

Lemma space_lower c : is_space c = true -> lower_char c = c.
Proof. destruct c as [[] [] [] [] [] [] [] []]; vm_compute; congruence. Qed.

Lemma lstrip_spec s :
  exists before, s = before ++ lstrip s /\ blank before.
Proof.
  induction s as [|c s (before & Hs & Hb)]; [now exists ""|].
  cbn [lstrip]. destruct (is_space c) eqn:Hc.
  - exists (String c before). split; [cbn; now rewrite <- Hs|].
    unfold blank in *. cbn [string_forallb]. now rewrite Hc, Hb.
  - now exists "".
Qed.

Lemma rstrip_spec s :
  exists after, s = rstrip s ++ after /\ blank after.
Proof.
  induction s as [|c s (after & Hs & Hb)]; [now exists ""|].
  cbn [rstrip]. destruct (rstrip s) as [|r rs] eqn:Hr.
  - cbn [String.append] in Hs. subst after. destruct (is_space c) eqn:Hc.
    + exists (String c s). split; [reflexivity|].
      unfold blank in *. cbn [string_forallb]. now rewrite Hc, Hb.
    + exists s. split; [reflexivity | exact Hb].
  - exists after. split; [|exact Hb]. cbn [String.append]. now rewrite Hs at 1.
Qed.

Lemma lstrip_blank_app before s :
  blank before -> lstrip (before ++ s) = lstrip s.
Proof.
  unfold blank. induction before as [|c before IH]; [reflexivity|].
  cbn [string_forallb String.append lstrip]. rewrite andb_true_iff.
  intros [-> Hb]. now apply IH.
Qed.

Lemma rstrip_blank after : blank after -> rstrip after = "".
Proof.
  unfold blank. induction after as [|c after IH]; [reflexivity|].
  cbn [string_forallb rstrip]. rewrite andb_true_iff.
  intros [-> Hb]. now rewrite (IH Hb).
Qed.

Lemma lower_yes word :
  lower word = "yes" ->
  exists c1 c2 c3,
    word = String c1 (String c2 (String c3 ""))
    /\ is_space c1 = false /\ is_space c3 = false.
Proof.
  destruct word as [|c1 [|c2 [|c3 [|c4 w]]]]; cbn [lower]; try discriminate.
  intros [= H1 H2 H3]. exists c1, c2, c3. split; [reflexivity|].
  split.
  - destruct (is_space c1) eqn:E; [|reflexivity].
    rewrite (space_lower _ E) in H1. now subst c1.
  - destruct (is_space c3) eqn:E; [|reflexivity].
    rewrite (space_lower _ E) in H3. now subst c3.
Qed.

Lemma strip_padded before word after :
  blank before -> blank after -> lower word = "yes" ->
  strip (before ++ word ++ after) = word.
Proof.
  intros Hb Ha Hw. destruct (lower_yes word Hw) as (c1 & c2 & c3 & -> & H1 & H3).
  unfold strip. rewrite (lstrip_blank_app _ _ Hb).
  cbn [String.append lstrip]. rewrite H1. cbn [rstrip].
  rewrite (rstrip_blank _ Ha), H3. reflexivity.
Qed.

End AnswersMore.

(** X18. The document is always saved under a name that ends with ".docx":
    a name that already ends so is kept, any other gets ".docx" appended
    (whatever the letter case of an extension it has); applying the rule
    twice changes nothing more. *)
Theorem output_file_ends_with_docx (output_file : string) :
  (exists stem, output_file_name output_file = (stem ++ ".docx")%string)
  /\ (output_file_name output_file = output_file
      <-> exists stem, output_file = (stem ++ ".docx")%string)
  /\ (output_file_name output_file = output_file
      \/ output_file_name output_file = (output_file ++ ".docx")%string)
  /\ output_file_name (output_file_name output_file) = output_file_name output_file.
Proof.
  unfold output_file_name.
  destruct (endswith output_file ".docx") eqn:E.
  - pose proof (proj1 (endswith_spec _ _) E) as Hstem.
    split; [exact Hstem|]. split; [tauto|]. split; [now left|].
    cbv iota. now rewrite E.
  - split; [now exists output_file|]. split; [|split; [now right|]].
    + split.
      * intros Heq. apply (f_equal String.length) in Heq.
        rewrite append_length in Heq. cbn in Heq. lia.
      * intros Hstem. apply endswith_spec in Hstem. congruence.
    + assert (H : endswith (output_file ++ ".docx") ".docx" = true)
        by (apply endswith_spec; eauto).
      cbv iota. now rewrite H.
Qed.

(** X19. A question is answered with yes exactly when the answer is the word
    "yes" in any mix of upper and lower case, with nothing but white space
    around it; every other answer ("y", "yes please", an empty line) counts
    as no. *)
Theorem answered_yes_iff (answer : string) :
  answered_yes answer = true
  <-> exists before word after,
        answer = (before ++ word ++ after)%string
        /\ blank before /\ blank after /\ lower word = "yes"%string.
Proof.
  unfold answered_yes. rewrite String.eqb_eq. split.
  - intros Hyes. destruct (lstrip_spec answer) as (before & Hl & Hb).
    destruct (rstrip_spec (lstrip answer)) as (after & Hr & Ha).
    exists before, (strip answer), after. unfold strip in *.
    split; [|auto]. now rewrite <- Hr.
  - intros (before & word & after & -> & Hb & Ha & Hw).
    now rewrite strip_padded.
Qed.

(** ** An odd selection next to an empty cell *)

(** X20. A selection of an odd number of rows (three or more) that ends
    above the last row of the sheet and whose cell below the last row is
    empty is read as the selection without its last row: the dangling pair is
    skipped with a "Missing data" warning. *)
Theorem dangling_row_dropped {T : Type} {num : Number T}
    (sheet : gmap string T) (col : string) (start_row end_row : Z) :
  is_column col = true -> (0 < start_row)%Z -> (start_row < end_row)%Z ->
  (end_row < 1048576)%Z ->
  Z.even (end_row - start_row) = true ->
  sheet !! address col (end_row + 1) = None ->
  fst (read_selection sheet (column_range col start_row end_row))
  = fst (read_selection sheet (column_range col start_row (end_row - 1)))
  /\ In (MissingData (address col end_row) (address col (end_row + 1)))
        (snd (read_selection sheet (column_range col start_row end_row))).
Proof.
  intros Hcol Hs Hlt _ Heven Hempty. unfold read_selection.
  rewrite !remove_dollars_plain, !get_replicate_cells_column by (assumption || lia).
  rewrite Z.even_spec in Heven. destruct Heven as [k Hk].
  replace (end_row - start_row + 2)%Z with ((k + 1) * 2)%Z by lia.
  replace (end_row - 1 - start_row + 2)%Z with (1 + k * 2)%Z by lia.
  rewrite Z.div_mul, Z.div_add by lia. cbn [Z.div Z.add]. change (1 / 2)%Z with 0%Z.
  replace (Z.to_nat (k + 1)) with (S (Z.to_nat k)) by lia.
  replace (0 + k)%Z with k by lia.
  unfold replicate_pairs. rewrite seq_S, map_app. cbn [map Nat.add].
  replace (start_row + 2 * Z.of_nat (Z.to_nat k))%Z with end_row by lia.
  set (pairs := map _ (seq 0 (Z.to_nat k))).
  set (last := (address col end_row, address col (end_row + 1))).
  assert (Hnone : adjusted sheet last = None).
  { unfold adjusted, last. cbn [fst snd]. rewrite Hempty.
    now destruct (sheet !! address col end_row). }
  rewrite !Out_bind_fst, Out_bind_snd. cbn [mret Out_ret fst snd].
  split.
  - rewrite !process_replicates_values, omap_app. cbn [omap list_omap].
    rewrite Hnone. now rewrite app_nil_r.
  - rewrite app_nil_r. apply process_replicates_printed; [|exact Hnone].
    apply in_or_app. right. now left.
Qed.

Lemma dangling_row_dropped_witness :
  fst (read_selection (delete "A4"%string example_sheet) (column_range "A" 1 3))
  = fst (read_selection (delete "A4"%string example_sheet)
           (column_range "A" 1 (3 - 1)))
  /\ In (MissingData (address "A" 3) (address "A" (3 + 1)))
        (snd (read_selection (delete "A4"%string example_sheet)
                (column_range "A" 1 3))).
Proof.
  apply (dangling_row_dropped (delete "A4"%string example_sheet) "A" 1 3);
    [reflexivity | lia | lia | lia | reflexivity | vm_compute; reflexivity].
Defined.
